(** * Ingestion and deduplication pipeline of the AI news aggregator

    A shallow embedding of the parts of the repository that decide how
    articles are fingerprinted, deduplicated, registered, scraped and
    cleaned up:

    - [ai_news/models.py]                  ([NewsArticle.save])
    - [ai_news/src/deduplication.py]       ([VectorDeduplicator],
                                            [ContentHashDeduplicator],
                                            [DuplicationService])
    - [ai_news/src/parsers/factory.py]     ([ScraperFactory])
    - [ai_news/src/parsers/base.py]        ([BaseScraper._parse_date])
    - [ai_news/src/news_service.py]        ([NewsOrchestrationService])

    Python objects that the code mutates in place (the [NewsArticle]
    instance, the class-level registry, the database, the vector index, the
    logger) are threaded explicitly. Exceptions are values of a sum type. *)

From Stdlib Require Import ZArith List String Ascii Bool Lia QArith.
From Stdlib Require Import Permutation Sorted.
Import ListNotations.

Local Open Scope Z_scope.

(* ================================================================== *)
(** ** Python text *)

(** A Python [str] is a sequence of Unicode code points. Article text is
    modelled as such, because slicing ([title[:500]]) counts code points
    while hashing sees the UTF-8 bytes. *)
Definition text := list Z.

(** Identifiers, registry names and messages are Rocq strings; a character
    of such a string stands for the code point with the same number
    (U+0000..U+00FF). *)
Definition text_of_string (s : string) : text :=
  map (fun c => Z.of_N (N_of_ascii c)) (list_ascii_of_string s).

Module Utf8.

(** [str.encode('utf-8')]; lone surrogates raise [UnicodeEncodeError],
    which is [None] here. *)
Definition encode_cp (c : Z) : option (list Z) :=
  if c <? 0 then None
  else if c <? 128 then Some [c]
  else if c <? 2048 then
    Some [Z.lor 192 (Z.shiftr c 6); Z.lor 128 (Z.land c 63)]
  else if (55296 <=? c) && (c <=? 57343) then None
  else if c <? 65536 then
    Some [Z.lor 224 (Z.shiftr c 12);
          Z.lor 128 (Z.land (Z.shiftr c 6) 63);
          Z.lor 128 (Z.land c 63)]
  else if c <=? 1114111 then
    Some [Z.lor 240 (Z.shiftr c 18);
          Z.lor 128 (Z.land (Z.shiftr c 12) 63);
          Z.lor 128 (Z.land (Z.shiftr c 6) 63);
          Z.lor 128 (Z.land c 63)]
  else None.

Fixpoint encode (t : text) : option (list Z) :=
  match t with
  | [] => Some []
  | c :: t' =>
      match encode_cp c, encode t' with
      | Some b, Some bs => Some (b ++ bs)
      | _, _ => None
      end
  end.

End Utf8.

(* ================================================================== *)
(** ** The [str] methods that the code calls *)

Module PyStr.

Local Open Scope string_scope.

(** [str.lower] on one character: A-Z, and the upper-case letters of
    U+00C0..U+00DE except the multiplication sign U+00D7. *)
Definition lower_char (c : ascii) : ascii :=
  let n := N_of_ascii c in
  if ((65 <=? n) && (n <=? 90))%N then ascii_of_N (n + 32)
  else if ((192 <=? n) && (n <=? 222) && negb (n =? 215))%N
       then ascii_of_N (n + 32)
  else c.

Fixpoint lower (s : string) : string :=
  match s with
  | EmptyString => EmptyString
  | String c s' => String (lower_char c) (lower s')
  end.

(** [s.endswith(suffix)] *)
Fixpoint endswith (suffix s : string) : bool :=
  if String.eqb s suffix then true
  else match s with
       | EmptyString => false
       | String _ s' => endswith suffix s'
       end.

(** [s.replace(old, new)] for a non-empty [old]: occurrences are taken
    from the left and do not overlap. [skip] counts the characters of
    the occurrence just replaced that are still to be dropped. *)
Fixpoint replace_from (old new : string) (skip : nat) (s : string)
  : string :=
  match s with
  | EmptyString => EmptyString
  | String c s' =>
      match skip with
      | S k => replace_from old new k s'
      | O =>
          if String.prefix old s
          then new ++ replace_from old new (String.length old - 1) s'
          else String c (replace_from old new O s')
      end
  end.

Definition replace (old new s : string) : string :=
  replace_from old new O s.

(** [sep.join(parts)] *)
Definition join (sep : string) (parts : list string) : string :=
  String.concat sep parts.

End PyStr.

(* ================================================================== *)
(** ** SHA-256 ([hashlib.sha256(...).hexdigest()]) *)

Module Sha256.

Definition w32 (x : Z) : Z := x mod 4294967296.

Definition rotr (n x : Z) : Z :=
  Z.lor (Z.shiftr x n) (w32 (Z.shiftl x (32 - n))).

Definition Ch (x y z : Z) : Z :=
  Z.lxor (Z.land x y) (Z.land (Z.lxor x 4294967295) z).
Definition Maj (x y z : Z) : Z :=
  Z.lxor (Z.lxor (Z.land x y) (Z.land x z)) (Z.land y z).
Definition bsig0 (x : Z) : Z :=
  Z.lxor (Z.lxor (rotr 2 x) (rotr 13 x)) (rotr 22 x).
Definition bsig1 (x : Z) : Z :=
  Z.lxor (Z.lxor (rotr 6 x) (rotr 11 x)) (rotr 25 x).
Definition ssig0 (x : Z) : Z :=
  Z.lxor (Z.lxor (rotr 7 x) (rotr 18 x)) (Z.shiftr x 3).
Definition ssig1 (x : Z) : Z :=
  Z.lxor (Z.lxor (rotr 17 x) (rotr 19 x)) (Z.shiftr x 10).

(** The constants are defined from the primes: the round constants are
    the first 32 bits of the fractional parts of the cube roots of the
    first 64 primes, the initial chaining values those of the square roots
    of the first 8. *)
Definition first_primes : list Z :=
  [2; 3; 5; 7; 11; 13; 17; 19; 23; 29; 31; 37; 41; 43; 47; 53;
   59; 61; 67; 71; 73; 79; 83; 89; 97; 101; 103; 107; 109; 113; 127; 131;
   137; 139; 149; 151; 157; 163; 167; 173; 179; 181; 191; 193; 197; 199;
   211; 223; 227; 229; 233; 239; 241; 251; 257; 263; 269; 271; 277; 281;
   283; 293; 307; 311].

(** The integer cube root of [n] by bisection, between [lo] and [hi]. *)
Fixpoint cube_root (fuel : nat) (lo hi n : Z) : Z :=
  match fuel with
  | O => lo
  | S fuel' =>
      let mid := (lo + hi) / 2 in
      if mid * mid * mid <=? n then cube_root fuel' mid hi n
      else cube_root fuel' lo mid n
  end.

Definition frac_cube_root (p : Z) : Z :=
  w32 (cube_root 40 0 (2 ^ 36) (p * 2 ^ 96)).

Definition frac_square_root (p : Z) : Z :=
  w32 (Z.sqrt (p * 2 ^ 64)).

Definition K : list Z := Eval vm_compute in map frac_cube_root first_primes.

(** The eight working variables / chaining values. *)
Record regs : Type := Regs
  { ra : Z; rb : Z; rc : Z; rd : Z; re : Z; rf : Z; rg : Z; rh : Z }.

Definition H0 : regs :=
  Eval vm_compute in
    Regs (frac_square_root 2) (frac_square_root 3) (frac_square_root 5)
         (frac_square_root 7) (frac_square_root 11) (frac_square_root 13)
         (frac_square_root 17) (frac_square_root 19).

(** Message padding: a [0x80] byte, zeros up to 56 mod 64, then the bit
    length as a 64-bit big-endian integer. *)
Definition be_bytes (n : nat) (x : Z) : list Z :=
  map (fun i => Z.land (Z.shiftr x (8 * Z.of_nat i)) 255) (rev (seq 0 n)).

Definition pad (msg : list Z) : list Z :=
  let l := Z.of_nat (List.length msg) in
  let k := Z.to_nat ((55 - l) mod 64) in
  msg ++ [128] ++ repeat 0 k ++ be_bytes 8 (8 * l).

Fixpoint words_of_bytes (bs : list Z) : list Z :=
  match bs with
  | b0 :: b1 :: b2 :: b3 :: rest =>
      (Z.lor (Z.shiftl b0 24)
             (Z.lor (Z.shiftl b1 16) (Z.lor (Z.shiftl b2 8) b3)))
        :: words_of_bytes rest
  | _ => []
  end.

Fixpoint schedule (n : nat) (w : list Z) : list Z :=
  match n with
  | O => w
  | S n' =>
      let i := List.length w in
      let x := w32 (ssig1 (nth (i - 2) w 0) + nth (i - 7) w 0
                    + ssig0 (nth (i - 15) w 0) + nth (i - 16) w 0) in
      schedule n' (w ++ [x])
  end.

Definition round (r : regs) (kw : Z * Z) : regs :=
  let '(k, w) := kw in
  let t1 := w32 (rh r + bsig1 (re r) + Ch (re r) (rf r) (rg r) + k + w) in
  let t2 := w32 (bsig0 (ra r) + Maj (ra r) (rb r) (rc r)) in
  Regs (w32 (t1 + t2)) (ra r) (rb r) (rc r)
       (w32 (rd r + t1)) (re r) (rf r) (rg r).

Definition compress (h : regs) (block : list Z) : regs :=
  let w := schedule 48 (words_of_bytes block) in
  let r := fold_left round (combine K w) h in
  Regs (w32 (ra h + ra r)) (w32 (rb h + rb r))
       (w32 (rc h + rc r)) (w32 (rd h + rd r))
       (w32 (re h + re r)) (w32 (rf h + rf r))
       (w32 (rg h + rg r)) (w32 (rh h + rh r)).

Fixpoint blocks (fuel : nat) (bs : list Z) : list (list Z) :=
  match fuel, bs with
  | _, [] => []
  | O, _ => []
  | S fuel', _ => firstn 64 bs :: blocks fuel' (skipn 64 bs)
  end.

Definition digest (msg : list Z) : regs :=
  let p := pad msg in
  fold_left compress (blocks (List.length p) p) H0.

Definition hex_digit (d : Z) : ascii :=
  if d <? 10 then ascii_of_N (Z.to_N (48 + d))
  else ascii_of_N (Z.to_N (87 + d)).

Definition hex8 (w : Z) (k : string) : string :=
  String (hex_digit (Z.land (Z.shiftr w 28) 15))
 (String (hex_digit (Z.land (Z.shiftr w 24) 15))
 (String (hex_digit (Z.land (Z.shiftr w 20) 15))
 (String (hex_digit (Z.land (Z.shiftr w 16) 15))
 (String (hex_digit (Z.land (Z.shiftr w 12) 15))
 (String (hex_digit (Z.land (Z.shiftr w 8) 15))
 (String (hex_digit (Z.land (Z.shiftr w 4) 15))
 (String (hex_digit (Z.land w 15)) k))))))).

Definition hex (r : regs) : string :=
  hex8 (ra r) (hex8 (rb r) (hex8 (rc r) (hex8 (rd r)
 (hex8 (re r) (hex8 (rf r) (hex8 (rg r) (hex8 (rh r) EmptyString))))))).

Definition hexdigest (msg : list Z) : string := hex (digest msg).

End Sha256.

(* ================================================================== *)
(** ** Data model ([ai_news/models.py]) *)

(** Times are microseconds since the epoch, the resolution of [datetime]. *)
Definition datetime := Z.
Definition timedelta_days (days : Z) : Z := days * 86400000000.

(** A [NewsArticle], both as an in-memory instance and as a table row.
    [id] is [None] until the first [save]. [content_hash] is the empty
    string until it is computed ([CharField] default). [duplicate_of] holds
    the primary key of the referenced row. *)
Record NewsArticle : Type := mkNewsArticle
  { id : option Z;
    title : text;
    content : text;
    url : text;
    source : text;
    published_date : datetime;
    scraped_date : datetime;
    content_hash : string;
    embedding_vector : option (list Q);
    is_duplicate : bool;
    duplicate_of : option Z }.

Definition with_id (a : NewsArticle) (i : option Z) : NewsArticle :=
  mkNewsArticle i (title a) (content a) (url a) (source a)
    (published_date a) (scraped_date a) (content_hash a)
    (embedding_vector a) (is_duplicate a) (duplicate_of a).

Definition with_content_hash (a : NewsArticle) (h : string) : NewsArticle :=
  mkNewsArticle (id a) (title a) (content a) (url a) (source a)
    (published_date a) (scraped_date a) h
    (embedding_vector a) (is_duplicate a) (duplicate_of a).

Definition with_embedding_vector (a : NewsArticle) (v : option (list Q))
  : NewsArticle :=
  mkNewsArticle (id a) (title a) (content a) (url a) (source a)
    (published_date a) (scraped_date a) (content_hash a)
    v (is_duplicate a) (duplicate_of a).

Definition with_is_duplicate (a : NewsArticle) (b : bool) : NewsArticle :=
  mkNewsArticle (id a) (title a) (content a) (url a) (source a)
    (published_date a) (scraped_date a) (content_hash a)
    (embedding_vector a) b (duplicate_of a).

Definition with_duplicate_of (a : NewsArticle) (d : option Z) : NewsArticle :=
  mkNewsArticle (id a) (title a) (content a) (url a) (source a)
    (published_date a) (scraped_date a) (content_hash a)
    (embedding_vector a) (is_duplicate a) d.

(** The columns that [save(update_fields=[...])] is called with. *)
Inductive field : Type :=
| F_is_duplicate
| F_duplicate_of
| F_embedding_vector.

Definition field_eqb (f g : field) : bool :=
  match f, g with
  | F_is_duplicate, F_is_duplicate
  | F_duplicate_of, F_duplicate_of
  | F_embedding_vector, F_embedding_vector => true
  | _, _ => false
  end.

(** What the adapters hand to the pipeline ([parsers/base.py]). *)
Record NewsArticleData : Type := mkNewsArticleData
  { d_title : text;
    d_content : text;
    d_url : text;
    d_source : text;
    d_published_date : option datetime;
    d_author : option text }.

(** One point of the vector collection: the page content that was embedded
    and the metadata written by [_create_document]. *)
Record point : Type := mkPoint
  { pt_id : option Z;          (* the key, [str(article.id)] *)
    page_content : text;
    meta_article_id : option Z;
    meta_title : text;
    meta_source : text;
    meta_url : text;
    meta_published_date : datetime;
    meta_content_hash : string }.

(** What [inspect] sees of a class. *)
Inductive class_kind : Type :=
| TheBaseScraper        (* [BaseScraper] itself *)
| ScraperSubclass       (* a proper subclass of [BaseScraper] *)
| UnrelatedClass.

Record pyclass : Type := mkClass
  { cls_name : string;            (* [__name__] *)
    cls_kind : class_kind;
    cls_constructible : bool }.   (* whether calling it without arguments
                                     returns an instance *)

(** A member of an imported module. *)
Inductive pyobj : Type :=
| PyClass (c : pyclass)
| PyOther.

(** The class-level state of [ScraperFactory]: a [dict], whose keys keep
    their insertion order, and the discovery flag. *)
Record factory : Type := mkFactory
  { _scrapers : list (string * pyclass);
    _discovered : bool }.

(* ================================================================== *)
(** ** Effects: exceptions, log records, the world *)

Inductive service : Type := Embedding | VectorIndex.

Inductive exn : Type :=
| IntegrityError          (* unique or foreign-key violation *)
| DataError               (* value too long for the column *)
| DatabaseError           (* forced update touched no row *)
| ValueError (msg : string)
| UnicodeEncodeError      (* a [ValueError] by inheritance *)
| TypeError
| AttributeError
| OverflowError
| ServiceError (s : service)   (* the embedding service or the index raised *)
| ImportError
| FetchError.             (* an adapter's [scrape] raised *)

(** [isinstance(e, ValueError)] *)
Definition is_ValueError (e : exn) : bool :=
  match e with
  | ValueError _ | UnicodeEncodeError => true
  | _ => false
  end.

Inductive level : Type := DEBUG | INFO | WARNING | ERROR.

(** Log records, by the format string that produced them. *)
Inductive message : Type :=
| MsgSearchError
| MsgAddIndexError
| MsgCouldNotStoreEmbedding
| MsgAddedToIndex (t : text)
| MsgMarkedDuplicate (t orig : text) (score : Q)
| MsgMarkedHashDuplicate (t orig : text)
| MsgRemovedFromIndex (i : option Z)
| MsgRemoveFromIndexError
| MsgFindHashError
| MsgStartScraping (n : nat)
| MsgScraped (count : nat) (name : string)
| MsgErrorScraping (name : string)
| MsgTotalScraped (n : nat)
| MsgProcessed (t : text)
| MsgErrorProcessing (t : text)
| MsgErrorSingleSource (name : string)
| MsgCleanupIndexError (i : option Z)
| MsgCleanedUp (n : nat)
| MsgDiscovered (scraper_name class_name : string)
| MsgImportError (module_name : string)
| MsgDiscoveryComplete (n : nat)
| MsgManuallyRegistered (name : string)
| MsgCouldNotParseDate (date_str : string).

(** Everything observable that the code does, in the order it happens. *)
Inductive event : Type :=
| EvEmbed (t : text)            (* a call to the embedding service *)
| EvIndexQuery (q : text)
| EvIndexUpsert (key : option Z)
| EvIndexDelete (key : option Z)
| EvStoreInsert (i : Z)
| EvStoreUpdate (i : Z)
| EvStoreDelete (ids : list (option Z))  (* one DELETE, with its cascade *)
| EvRollback
| EvLog (l : level) (m : message).

Record world : Type := mkWorld
  { store : list NewsArticle;   (* the news-article table, in insertion order *)
    next_id : Z;                (* the primary-key sequence *)
    index : list point;         (* the vector collection *)
    registry : factory;         (* [ScraperFactory]'s class attributes *)
    trace : list event }.       (* oldest event first *)

Inductive result (A : Type) : Type :=
| Ok (a : A)
| Raise (e : exn).
Arguments Ok {A} a.
Arguments Raise {A} e.

(** Computations may change the world and may raise; effects made before
    an exception stay. *)
Definition M (A : Type) : Type := world -> result A * world.

Definition ret {A} (a : A) : M A := fun w => (Ok a, w).
Definition raise {A} (e : exn) : M A := fun w => (Raise e, w).
Definition bind {A B} (m : M A) (k : A -> M B) : M B :=
  fun w => match m w with
           | (Ok a, w') => k a w'
           | (Raise e, w') => (Raise e, w')
           end.
(** [try: m except Exception: h] *)
Definition try_except {A} (m : M A) (h : exn -> M A) : M A :=
  fun w => match m w with
           | (Ok a, w') => (Ok a, w')
           | (Raise e, w') => h e w'
           end.

Declare Scope monad_scope.
Delimit Scope monad_scope with monad.
Notation "x <- c1 ;; c2" := (bind c1 (fun x => c2))
  (at level 61, c1 at next level, right associativity) : monad_scope.
Notation "c1 ;;; c2" := (bind c1 (fun _ => c2))
  (at level 61, right associativity) : monad_scope.
Local Open Scope monad_scope.

Definition get_world : M world := fun w => (Ok w, w).
Definition emit (e : event) : M unit :=
  fun w => (Ok tt, mkWorld (store w) (next_id w) (index w) (registry w)
                           (trace w ++ [e])).
Definition log (l : level) (m : message) : M unit := emit (EvLog l m).
Definition put_store (s : list NewsArticle) : M unit :=
  fun w => (Ok tt, mkWorld s (next_id w) (index w) (registry w) (trace w)).
Definition put_next_id (n : Z) : M unit :=
  fun w => (Ok tt, mkWorld (store w) n (index w) (registry w) (trace w)).
Definition put_index (ix : list point) : M unit :=
  fun w => (Ok tt, mkWorld (store w) (next_id w) ix (registry w) (trace w)).
Definition put_registry (f : factory) : M unit :=
  fun w => (Ok tt, mkWorld (store w) (next_id w) (index w) f (trace w)).

(** [with transaction.atomic(): m] -- an exception leaving the block rolls
    the table back to what it was on entry and propagates. The index, the
    log and the key sequence are outside the transaction. *)
Definition atomic {A} (m : M A) : M A :=
  fun w => match m w with
           | (Ok a, w') => (Ok a, w')
           | (Raise e, w') =>
               (Raise e, mkWorld (store w) (next_id w') (index w')
                                 (registry w') (trace w' ++ [EvRollback]))
           end.

(* ================================================================== *)
(** ** The ORM as far as the code uses it *)

Definition text_eqb (a b : text) : bool :=
  if list_eq_dec Z.eq_dec a b then true else false.

Definition opt_eqb (a b : option Z) : bool :=
  match a, b with
  | Some x, Some y => x =? y
  | None, None => true
  | _, _ => false
  end.

Fixpoint insert_by {A} (before : A -> A -> bool) (x : A) (l : list A)
  : list A :=
  match l with
  | [] => [x]
  | y :: l' => if before x y then x :: l else y :: insert_by before x l'
  end.

(** A stable sort: [before x y] says that [x] may stand in front of [y]. *)
Definition sort_by {A} (before : A -> A -> bool) (l : list A) : list A :=
  fold_right (insert_by before) [] l.

(** [class Meta: ordering = ['-published_date']] *)
Definition newest_first (x y : NewsArticle) : bool :=
  published_date y <=? published_date x.

(** [NewsArticle.objects.filter(...)], evaluated. *)
Definition objects_filter (p : NewsArticle -> bool) (s : list NewsArticle)
  : list NewsArticle :=
  sort_by newest_first (filter p s).

(** [NewsArticle.objects.get(id=i)]; [None] is [DoesNotExist]. *)
Definition objects_get (i : Z) (s : list NewsArticle) : option NewsArticle :=
  find (fun r => opt_eqb (id r) (Some i)) s.

Definition replace_row (i : Z) (r : NewsArticle) (s : list NewsArticle)
  : list NewsArticle :=
  map (fun x => if opt_eqb (id x) (Some i) then r else x) s.

Definition copy_field (f : field) (from to : NewsArticle) : NewsArticle :=
  match f with
  | F_is_duplicate => with_is_duplicate to (is_duplicate from)
  | F_duplicate_of => with_duplicate_of to (duplicate_of from)
  | F_embedding_vector => with_embedding_vector to (embedding_vector from)
  end.

(** [unique=True] on [url] and on [content_hash]: some other row already
    carries the value. *)
Definition unique_violation (a : NewsArticle) (s : list NewsArticle) : bool :=
  existsb (fun r => negb (opt_eqb (id r) (id a))
                    && (text_eqb (url r) (url a)
                        || String.eqb (content_hash r) (content_hash a))) s.

(** [ForeignKey('self')]: the referenced row must exist. *)
Definition fk_violation (a : NewsArticle) (s : list NewsArticle) : bool :=
  match duplicate_of a with
  | None => false
  | Some d => match objects_get d s with Some _ => false | None => true end
  end.

(** [max_length] of the [CharField]s and of the [URLField] (200). *)
Definition too_long (a : NewsArticle) : bool :=
  (500 <? List.length (title a))%nat
  || (200 <? List.length (url a))%nat
  || (100 <? List.length (source a))%nat
  || (64 <? String.length (content_hash a))%nat.

(** *** What lies outside the repository *)
Record externals : Type := mkExternals
  { (** The relevance score that the vector store reports for a stored page
        content against a query text (embedding model, cosine distance). *)
    relevance : text -> text -> Q;
    (** The vector that the embedding service returns. *)
    embedding : text -> list Q;
    (** Whether a service raises when it is called at a given moment; the
        moment is the number of events recorded so far. *)
    fails : service -> nat -> bool;
    (** Whether the database backend rejects over-long values. *)
    db_enforces_max_length : bool;
    (** The wall clock. *)
    now_at : nat -> datetime;
    (** [os.listdir] of the parsers package. *)
    parsers_dir : list string;
    (** [importlib.import_module] followed by [inspect.getmembers], by
        module name; [None] when either raises. *)
    import_members : string -> option (list (string * pyobj));
    (** What an adapter's [scrape()] returns at a given moment; [None]
        when it raises. *)
    scrape : pyclass -> nat -> option (list NewsArticleData);
    (** [datetime.fromisoformat] and [email.utils.parsedate_to_datetime]. *)
    fromisoformat : string -> result datetime;
    parsedate_to_datetime : string -> result datetime }.

Section Model.

Variable X : externals.

(** A call to an external service: recorded, then it may raise. *)
Definition call (s : service) (ev : event) : M unit :=
  fun w =>
    let w' := mkWorld (store w) (next_id w) (index w) (registry w)
                      (trace w ++ [ev]) in
    if fails X s (List.length (trace w)) then (Raise (ServiceError s), w')
    else (Ok tt, w').

(** *** [NewsArticle.save] ([models.py], lines 25-30) *)

Definition fingerprint (t c : text) : option string :=
  match Utf8.encode (t ++ c) with
  | Some bytes => Some (Sha256.hexdigest bytes)
  | None => None
  end.

(** [if not self.content_hash: self.content_hash = sha256(...)] *)
Definition ensure_content_hash (a : NewsArticle) : M NewsArticle :=
  if String.eqb (content_hash a) EmptyString then
    match fingerprint (title a) (content a) with
    | Some h => ret (with_content_hash a h)
    | None => raise UnicodeEncodeError
    end
  else ret a.

Definition check_row (a : NewsArticle) (s : list NewsArticle) : M unit :=
  if unique_violation a s then raise IntegrityError
  else if fk_violation a s then raise IntegrityError
  else if db_enforces_max_length X && too_long a then raise DataError
  else ret tt.

(** The inherited [Model.save]. *)
Definition model_save (update_fields : option (list field))
           (a : NewsArticle) : M NewsArticle :=
  w <- get_world ;;
  match update_fields, id a with
  | None, None =>
      (* INSERT, the key comes from the sequence *)
      let a' := with_id a (Some (next_id w)) in
      check_row a' (store w) ;;;
      put_store (store w ++ [a']) ;;;
      put_next_id (next_id w + 1) ;;;
      emit (EvStoreInsert (next_id w)) ;;;
      ret a'
  | None, Some i =>
      match objects_get i (store w) with
      | Some _ =>
          (* UPDATE of every column *)
          check_row a (store w) ;;;
          put_store (replace_row i a (store w)) ;;;
          emit (EvStoreUpdate i) ;;;
          ret a
      | None =>
          (* INSERT with an explicit key *)
          check_row a (store w) ;;;
          put_store (store w ++ [a]) ;;;
          put_next_id (Z.max (next_id w) (i + 1)) ;;;
          emit (EvStoreInsert i) ;;;
          ret a
      end
  | Some _, None =>
      raise (ValueError "Cannot force an update in save() with no primary key.")
  | Some fs, Some i =>
      match objects_get i (store w) with
      | Some row =>
          let row' := fold_left (fun r f => copy_field f a r) fs row in
          (if existsb (field_eqb F_duplicate_of) fs && fk_violation row' (store w)
           then raise IntegrityError else ret tt) ;;;
          put_store (replace_row i row' (store w)) ;;;
          emit (EvStoreUpdate i) ;;;
          ret a
      | None => raise DatabaseError
      end
  end.

Definition save (update_fields : option (list field)) (a : NewsArticle)
  : M NewsArticle :=
  a' <- ensure_content_hash a ;;
  model_save update_fields a'.

(* ---------------------------------------------------------------- *)
(** *** [VectorDeduplicator] ([deduplication.py]) *)

Record VectorDeduplicator : Type := mkVectorDeduplicator
  { similarity_threshold : Q }.

(** [similarity_threshold: float = 0.85] *)
Definition default_vector_deduplicator : VectorDeduplicator :=
  mkVectorDeduplicator (85 # 100).

(** [f"{article.title} {article.content}"] *)
Definition _create_searchable_text (a : NewsArticle) : text :=
  title a ++ [32] ++ content a.

(** The document of [_create_document], stored under the key
    [str(article.id)]. *)
Definition _create_document (a : NewsArticle) : point :=
  mkPoint (id a)
          (_create_searchable_text a)
          (id a) (title a) (source a) (url a)
          (published_date a) (content_hash a).

Definition higher_score (x y : point * Q) : bool :=
  Qle_bool (snd y) (snd x).

(** [vector_store.similarity_search_with_relevance_scores(query, k,
    score_threshold)]: the query is embedded, the collection is asked for
    the [k] best points, and those below the threshold are dropped. *)
Definition similarity_search_with_relevance_scores
           (query : text) (k : nat) (score_threshold : Q)
  : M (list (point * Q)) :=
  call Embedding (EvEmbed query) ;;;
  call VectorIndex (EvIndexQuery query) ;;;
  w <- get_world ;;
  let scored := map (fun p => (p, relevance X query (page_content p)))
                    (index w) in
  ret (filter (fun ps => Qle_bool score_threshold (snd ps))
              (firstn k (sort_by higher_score scored))).

(** The loop of [find_similar_articles] over the hits. *)
Fixpoint resolve_hits (a : NewsArticle) (s : list NewsArticle)
         (docs : list (point * Q)) : list (NewsArticle * Q) :=
  match docs with
  | [] => []
  | (doc, relevance_score) :: rest =>
      match meta_article_id doc with
      | Some article_id =>
          if negb (article_id =? 0)
             && negb (opt_eqb (Some article_id) (id a)) then
            match objects_get article_id s with
            | Some similar_article =>
                (similar_article, relevance_score) :: resolve_hits a s rest
            | None => resolve_hits a s rest      (* DoesNotExist *)
            end
          else resolve_hits a s rest
      | None => resolve_hits a s rest
      end
  end.

Definition find_similar_articles (vd : VectorDeduplicator)
           (a : NewsArticle) (limit : nat) : M (list (NewsArticle * Q)) :=
  try_except
    (let query_text := _create_searchable_text a in
     similar_docs <- similarity_search_with_relevance_scores
                       query_text limit (similarity_threshold vd) ;;
     w <- get_world ;;
     ret (resolve_hits a (store w) similar_docs))
    (fun _ => log ERROR MsgSearchError ;;; ret []).

(** An upsert: a point with the same key is replaced where it stands, a
    new key is added. *)
Definition upserted (doc : point) (ix : list point) : list point :=
  if existsb (fun p => opt_eqb (pt_id p) (pt_id doc)) ix
  then map (fun p => if opt_eqb (pt_id p) (pt_id doc) then doc else p) ix
  else ix ++ [doc].

(** [vector_store.add_documents(documents=[document], ids=ids)]: the
    page content is embedded and the point is upserted under its key.
    Whether the collection takes the key is its own business; a refusal is
    a failure of the call. *)
Definition add_documents (doc : point) : M unit :=
  call Embedding (EvEmbed (page_content doc)) ;;;
  call VectorIndex (EvIndexUpsert (pt_id doc)) ;;;
  w <- get_world ;;
  put_index (upserted doc (index w)).

(** Returns the flag and the instance as the call leaves it. *)
Definition add_article_to_index (a : NewsArticle) : M (bool * NewsArticle) :=
  try_except
    (let document := _create_document a in
     add_documents document ;;;
     a' <- try_except
             (call Embedding (EvEmbed (page_content document)) ;;;
              save (Some [F_embedding_vector])
                   (with_embedding_vector a
                      (Some (embedding X (page_content document)))))
             (fun _ => log WARNING MsgCouldNotStoreEmbedding ;;; ret a) ;;
     log INFO (MsgAddedToIndex (title a)) ;;;
     ret (true, a'))
    (fun _ => log ERROR MsgAddIndexError ;;; ret (false, a)).

Definition default_limit : nat := 5.

Definition check_and_mark_duplicates (vd : VectorDeduplicator)
           (a : NewsArticle) : M (bool * NewsArticle) :=
  similar_articles <- find_similar_articles vd a default_limit ;;
  match similar_articles with
  | (original_article, similarity_score) :: _ =>
      a' <- save (Some [F_is_duplicate; F_duplicate_of])
                 (with_duplicate_of (with_is_duplicate a true)
                                    (id original_article)) ;;
      log INFO (MsgMarkedDuplicate (title a) (title original_article)
                                   similarity_score) ;;;
      ret (true, a')
  | [] => ret (false, a)
  end.

(** The point is addressed by [article_id]; it is taken to be the point
    that was stored under [str(article.id)]. *)
Definition remove_article_from_index (article_id : option Z) : M unit :=
  try_except
    (call VectorIndex (EvIndexDelete article_id) ;;;
     w <- get_world ;;
     put_index (filter (fun p => negb (opt_eqb (pt_id p) article_id))
                       (index w)) ;;;
     log INFO (MsgRemovedFromIndex article_id))
    (fun _ => log ERROR MsgRemoveFromIndexError).

(* ---------------------------------------------------------------- *)
(** *** [ContentHashDeduplicator] and [DuplicationService] *)

(** [filter(content_hash=...).exclude(id=article.id).first()]; the query
    itself does not fail here, so the handler is never entered. *)
Definition find_hash_duplicates (a : NewsArticle) : M (option NewsArticle) :=
  try_except
    (w <- get_world ;;
     ret (hd_error
            (objects_filter
               (fun r => String.eqb (content_hash r) (content_hash a)
                         && negb (opt_eqb (id r) (id a)))
               (store w))))
    (fun _ => log ERROR MsgFindHashError ;;; ret None).

Definition mark_as_hash_duplicate (a original : NewsArticle)
  : M NewsArticle :=
  a' <- save (Some [F_is_duplicate; F_duplicate_of])
             (with_duplicate_of (with_is_duplicate a true) (id original)) ;;
  log INFO (MsgMarkedHashDuplicate (title a) (title original)) ;;;
  ret a'.

Definition process_article_for_duplicates (vd : VectorDeduplicator)
           (a : NewsArticle) : M (bool * NewsArticle) :=
  hash_duplicate <- find_hash_duplicates a ;;
  match hash_duplicate with
  | Some original =>
      a' <- mark_as_hash_duplicate a original ;;
      ret (true, a')
  | None =>
      r <- check_and_mark_duplicates vd a ;;
      if fst r then ret (true, snd r)
      else
        r' <- add_article_to_index a ;;
        ret (false, snd r')
  end.

(* ---------------------------------------------------------------- *)
(** *** [ScraperFactory] ([parsers/factory.py]) *)

Definition moment : M nat := fun w => (Ok (List.length (trace w)), w).
Definition now : M datetime :=
  fun w => (Ok (now_at X (List.length (trace w))), w).

Fixpoint dict_get {V} (k : string) (d : list (string * V)) : option V :=
  match d with
  | [] => None
  | (k', v) :: d' => if String.eqb k' k then Some v else dict_get k d'
  end.

(** [d[k] = v]: an existing key keeps its place. *)
Fixpoint dict_set {V} (k : string) (v : V) (d : list (string * V))
  : list (string * V) :=
  match d with
  | [] => [(k, v)]
  | (k', v') :: d' =>
      if String.eqb k' k then (k, v) :: d' else (k', v') :: dict_set k v d'
  end.

Definition dict_keys {V} (d : list (string * V)) : list string :=
  map fst d.

(** [name.lower().replace('scraper', '')] *)
Definition scraper_name_of (name : string) : string :=
  PyStr.replace "scraper" "" (PyStr.lower name).

Definition set_scraper (k : string) (c : pyclass) : M unit :=
  w <- get_world ;;
  put_registry (mkFactory (dict_set k c (_scrapers (registry w)))
                          (_discovered (registry w))).

(** The inner loop of [_discover_scrapers] over the members of a module. *)
Fixpoint register_members (members : list (string * pyobj)) : M unit :=
  match members with
  | [] => ret tt
  | (name, obj) :: rest =>
      match obj with
      | PyClass c =>
          match cls_kind c with
          | ScraperSubclass =>
              let scraper_name := scraper_name_of name in
              set_scraper scraper_name c ;;;
              log INFO (MsgDiscovered scraper_name name) ;;;
              register_members rest
          | _ => register_members rest
          end
      | PyOther => register_members rest
      end
  end.

Definition is_parser_file (filename : string) : bool :=
  PyStr.endswith ".py" filename
  && negb (String.eqb filename "__init__.py"
           || String.eqb filename "base.py"
           || String.eqb filename "factory.py").

(** [filename[:-3]] *)
Definition strip_py (filename : string) : string :=
  String.substring 0 (String.length filename - 3) filename.

Fixpoint scan_files (files : list string) : M unit :=
  match files with
  | [] => ret tt
  | filename :: rest =>
      (if is_parser_file filename then
         let module_name := strip_py filename in
         try_except
           (match import_members X module_name with
            | Some members => register_members members
            | None => raise ImportError
            end)
           (fun _ => log ERROR (MsgImportError module_name))
       else ret tt) ;;;
      scan_files rest
  end.

Definition _discover_scrapers : M unit :=
  w <- get_world ;;
  if _discovered (registry w) then ret tt
  else
    scan_files (parsers_dir X) ;;;
    w' <- get_world ;;
    put_registry (mkFactory (_scrapers (registry w')) true) ;;;
    log INFO (MsgDiscoveryComplete (List.length (_scrapers (registry w')))).

Definition unknown_scraper_message (scraper_type : string)
           (known : list string) : string :=
  ("Unknown scraper type: " ++ scraper_type ++ ". Available: "
     ++ PyStr.join ", " known)%string.

(** Returns the class of the fresh instance. *)
Definition create_scraper (scraper_type : string) : M pyclass :=
  _discover_scrapers ;;;
  w <- get_world ;;
  match dict_get (PyStr.lower scraper_type) (_scrapers (registry w)) with
  | None =>
      raise (ValueError (unknown_scraper_message scraper_type
                           (dict_keys (_scrapers (registry w)))))
  | Some scraper_class =>
      if cls_constructible scraper_class then ret scraper_class
      else raise TypeError
  end.

Definition get_available_scrapers : M (list string) :=
  _discover_scrapers ;;;
  w <- get_world ;;
  ret (dict_keys (_scrapers (registry w))).

Definition register_scraper (name : string) (scraper_class : pyclass)
  : M unit :=
  match cls_kind scraper_class with
  | UnrelatedClass =>
      raise (ValueError "Scraper class must inherit from BaseScraper")
  | _ =>
      set_scraper (PyStr.lower name) scraper_class ;;;
      log INFO (MsgManuallyRegistered name)
  end.

Definition reload_scrapers : M unit :=
  put_registry (mkFactory [] false) ;;;
  _discover_scrapers.

(* ---------------------------------------------------------------- *)
(** *** [NewsOrchestrationService] ([news_service.py]) *)

(** The body of the loop of [scrape_single_source] for one raw article;
    the result tells whether the article is counted as new. *)
Definition scrape_article (vd : VectorDeduplicator)
           (article_data : NewsArticleData) : M bool :=
  try_except
    (atomic
       (w <- get_world ;;
        if existsb (fun r => text_eqb (url r) (d_url article_data)) (store w)
        then ret false                                   (* continue *)
        else
          t <- now ;;
          let article :=
            mkNewsArticle None
              (firstn 500 (d_title article_data))
              (d_content article_data)
              (d_url article_data)
              (d_source article_data)
              (match d_published_date article_data with
               | Some d => d
               | None => t
               end)
              t EmptyString None false None in
          article' <- save None article ;;
          r <- process_article_for_duplicates vd article' ;;
          log DEBUG (MsgProcessed (title (snd r))) ;;;
          ret (negb (fst r))))
    (fun _ => log ERROR (MsgErrorProcessing (d_title article_data)) ;;;
              ret false).

Fixpoint scrape_articles (vd : VectorDeduplicator)
         (articles_data : list NewsArticleData) (new_articles_count : nat)
  : M nat :=
  match articles_data with
  | [] => ret new_articles_count
  | article_data :: rest =>
      counted <- scrape_article vd article_data ;;
      scrape_articles vd rest
        (if counted then S new_articles_count else new_articles_count)
  end.

Definition scrape_single_source (vd : VectorDeduplicator)
           (scraper_name : string) : M nat :=
  try_except
    (scraper <- create_scraper scraper_name ;;
     m <- moment ;;
     articles_data <- match scrape X scraper m with
                      | Some l => ret l
                      | None => raise FetchError
                      end ;;
     scrape_articles vd articles_data O)
    (fun _ => log ERROR (MsgErrorSingleSource scraper_name) ;;; ret O).

Fixpoint scrape_sources (vd : VectorDeduplicator) (names : list string)
         (results : list (string * nat)) : M (list (string * nat)) :=
  match names with
  | [] => ret results
  | scraper_name :: rest =>
      results' <- try_except
                    (count <- scrape_single_source vd scraper_name ;;
                     log INFO (MsgScraped count scraper_name) ;;;
                     ret (dict_set scraper_name count results))
                    (fun _ => log ERROR (MsgErrorScraping scraper_name) ;;;
                              ret (dict_set scraper_name O results)) ;;
      scrape_sources vd rest results'
  end.

Definition scrape_all_sources (vd : VectorDeduplicator)
  : M (list (string * nat)) :=
  available_scrapers <- get_available_scrapers ;;
  log INFO (MsgStartScraping (List.length available_scrapers)) ;;;
  results <- scrape_sources vd available_scrapers [] ;;
  log INFO (MsgTotalScraped (list_sum (map snd results))) ;;;
  ret results.

(** Phase 1 of [cleanup_old_articles]. *)
Fixpoint remove_vectors (old_articles : list NewsArticle) : M unit :=
  match old_articles with
  | [] => ret tt
  | article :: rest =>
      try_except
        (remove_article_from_index (id article))
        (fun _ => log ERROR (MsgCleanupIndexError (id article))) ;;;
      remove_vectors rest
  end.

Definition has_id (i : option Z) (l : list NewsArticle) : bool :=
  existsb (fun x => opt_eqb (id x) i) l.

(** [on_delete=models.CASCADE]: rows whose [duplicate_of] points at a
    row that goes are collected too, and so on. *)
Fixpoint collect (fuel : nat) (s doomed : list NewsArticle)
  : list NewsArticle :=
  match fuel with
  | O => doomed
  | S fuel' =>
      match filter (fun r => match duplicate_of r with
                             | Some d => has_id (Some d) doomed
                             | None => false
                             end && negb (has_id (id r) doomed)) s with
      | [] => doomed
      | more => collect fuel' s (doomed ++ more)
      end
  end.

(** [queryset.delete()]: the filter is evaluated again, and everything
    goes in one transaction. *)
Definition queryset_delete (p : NewsArticle -> bool) : M unit :=
  w <- get_world ;;
  let doomed := collect (List.length (store w)) (store w)
                        (objects_filter p (store w)) in
  put_store (filter (fun r => negb (has_id (id r) doomed)) (store w)) ;;;
  emit (EvStoreDelete (map id doomed)).

Definition default_days : Z := 30.

Definition cleanup_old_articles (days : Z) : M nat :=
  t <- now ;;
  let cutoff_date := t - timedelta_days days in
  let is_old := fun r => scraped_date r <? cutoff_date in
  w <- get_world ;;
  let count := List.length (objects_filter is_old (store w)) in
  w1 <- get_world ;;
  remove_vectors (objects_filter is_old (store w1)) ;;;
  queryset_delete is_old ;;;
  log INFO (MsgCleanedUp count) ;;;
  ret count.

(* ---------------------------------------------------------------- *)
(** *** [BaseScraper._parse_date] ([parsers/base.py]) *)

(** [try: m except (classes): h] *)
Definition try_except_only {A} (caught : exn -> bool) (m : M A) (h : M A)
  : M A :=
  fun w => match m w with
           | (Ok a, w') => (Ok a, w')
           | (Raise e, w') => if caught e then h w' else (Raise e, w')
           end.

Definition lift {A} (r : result A) : M A := fun w => (r, w).

Definition _parse_date (date_str : string) : M datetime :=
  if String.eqb date_str EmptyString then now
  else
    try_except_only
      (fun e => is_ValueError e
                || match e with AttributeError => true | _ => false end)
      (if PyStr.endswith "Z" date_str
       then lift (fromisoformat X (PyStr.replace "Z" "+00:00" date_str))
       else lift (fromisoformat X date_str))
      (try_except_only
         (fun e => is_ValueError e
                   || match e with TypeError => true | _ => false end)
         (lift (parsedate_to_datetime X date_str))
         (log WARNING (MsgCouldNotParseDate date_str) ;;; now)).

End Model.

(* ================================================================== *)
(** ** Text cleaning ([BaseScraper._clean_text], [parsers/base.py]) *)

(** [str.isspace] for one code point: what [str.split()] splits on. *)
Definition is_space (c : Z) : bool :=
  ((9 <=? c) && (c <=? 13)) || ((28 <=? c) && (c <=? 32))
  || (c =? 133) || (c =? 160) || (c =? 5760)
  || ((8192 <=? c) && (c <=? 8202))
  || (c =? 8232) || (c =? 8233) || (c =? 8239) || (c =? 8287)
  || (c =? 12288).

(** [text.split()]: the maximal runs of non-space characters. [cur] holds
    the run being read, last character first. *)
Fixpoint split_from (cur : text) (t : text) : list text :=
  match t with
  | [] => match cur with [] => [] | _ => [rev cur] end
  | c :: t' =>
      if is_space c then
        match cur with
        | [] => split_from [] t'
        | _ => rev cur :: split_from [] t'
        end
      else split_from (c :: cur) t'
  end.

Definition split (t : text) : list text := split_from [] t.

(** [' '.join(words)] *)
Fixpoint join_space (words : list text) : text :=
  match words with
  | [] => []
  | [w] => w
  | w :: rest => w ++ 32 :: join_space rest
  end.

(** [None] and the empty string both give the empty string. *)
Definition _clean_text (t : option text) : text :=
  match t with
  | None | Some [] => []
  | Some t' => join_space (split t')
  end.

(* ================================================================== *)
(** ** Rate limiting ([RateLimiter], [security.py]) *)

(** Clock readings ([time.time()]) and the window are numbers of one
    unit; [requests] lists the recorded readings, oldest call first. *)
Record RateLimiter : Type := mkRateLimiter
  { max_requests : Z;
    time_window : Z;
    requests : list Z }.

(** [RateLimiter(max_requests, time_window)] *)
Definition new_rate_limiter (max_requests time_window : Z) : RateLimiter :=
  mkRateLimiter max_requests time_window [].

(** [is_allowed()], at the clock reading [now]: the answer and the
    limiter afterwards. *)
Definition is_allowed (rl : RateLimiter) (now : Z) : bool * RateLimiter :=
  let kept := filter (fun req_time => now - req_time <? time_window rl)
                     (requests rl) in
  if Z.of_nat (List.length kept) <? max_requests rl then
    (true, mkRateLimiter (max_requests rl) (time_window rl) (kept ++ [now]))
  else (false, mkRateLimiter (max_requests rl) (time_window rl) kept).

(** [min(self.requests)] of a non-empty list. *)
Definition oldest (first : Z) (rest : list Z) : Z :=
  fold_left Z.min rest first.

(** [wait_time()], at the clock reading [now]. *)
Definition wait_time (rl : RateLimiter) (now : Z) : Z :=
  match requests rl with
  | [] => 0
  | first :: rest =>
      Z.max 0 (time_window rl - (now - oldest first rest))
  end.

(** A sequence of [is_allowed()] calls at the given clock readings. *)
Fixpoint ask_all (rl : RateLimiter) (times : list Z)
  : list bool * RateLimiter :=
  match times with
  | [] => ([], rl)
  | now :: later =>
      let (answer, rl') := is_allowed rl now in
      let (answers, rl'') := ask_all rl' later in
      (answer :: answers, rl'')
  end.

(*MODEL2*)

(* ================================================================== *)
(** ** Observations on runs, and the scenarios the properties are tried on *)


(** The instance after [is_duplicate = True; duplicate_of = original]. *)
Definition mark (a : NewsArticle) (original : option Z) : NewsArticle :=
  with_duplicate_of (with_is_duplicate a true) original.


Definition hash_AB : string := Eval vm_compute in Sha256.hexdigest [65; 66].

(** A stored story and a second row with the same fingerprint. *)
Definition story : NewsArticle :=
  mkNewsArticle (Some 1) [65] [66] (text_of_string "http://a/1")
                (text_of_string "a") 10 20 hash_AB None false None.



(** Hits in the order of their scores, best first. *)
Definition best_first {A} (x y : A * Q) : Prop := (snd y <= snd x)%Q.

(** Services that never fail and report the score [s] for every point. *)
Definition scored (s : Q) : externals :=
  mkExternals (fun _ _ => s) (fun _ => []) (fun _ _ => false) false
              (fun n => Z.of_nat n) [] (fun _ => None)
              (fun _ _ => Some [])
              (fun _ => Raise (ValueError ""))
              (fun _ => Raise (ValueError "")).

Definition hash_CD : string := Eval vm_compute in Sha256.hexdigest [67; 68].

(** A freshly saved article, distinct from [story] byte for byte, while
    [story] is the only point of the index. *)
Definition paraphrase : NewsArticle :=
  mkNewsArticle (Some 2) [67] [68] (text_of_string "http://b/2")
                (text_of_string "b") 11 21 hash_CD None false None.

Definition paraphrase_world : world :=
  mkWorld [story; paraphrase] 3 [_create_document story]
          (mkFactory [] false) [].

(** The service behind an event, if it is a call to one. *)
Definition service_of (e : event) : option service :=
  match e with
  | EvEmbed _ => Some Embedding
  | EvIndexQuery _ | EvIndexUpsert _ | EvIndexDelete _ => Some VectorIndex
  | _ => None
  end.

(** Whether one of the calls among the events [l], recorded from moment
    [n] on, raised. *)
Fixpoint raised_in (X : externals) (n : nat) (l : list event) : bool :=
  match l with
  | [] => false
  | e :: l' =>
      match service_of e with
      | Some s => fails X s n
      | None => false
      end || raised_in X (S n) l'
  end.

(** The events of a run that started in [w] and ended in [w']. *)
Definition new_events (w w' : world) : list event :=
  skipn (List.length (trace w)) (trace w').

(** Whether the index holds a point for the article. *)
Definition indexed (a : NewsArticle) (w : world) : bool :=
  existsb (fun p => opt_eqb (pt_id p) (id a)) (index w).

(** The embedding service and the index are down at moment 0 and up from
    then on. *)
Definition down_at_first : externals :=
  mkExternals (fun _ _ => 0%Q) (fun _ => [1%Q]) (fun _ n => (n =? 0)%nat)
              false (fun n => Z.of_nat n) [] (fun _ => None)
              (fun _ _ => Some [])
              (fun _ => Raise (ValueError ""))
              (fun _ => Raise (ValueError "")).

(** Only the freshly saved article, and an empty index. *)
Definition lonely_world : world :=
  mkWorld [paraphrase] 3 [] (mkFactory [] false) [].

(** A table as the database keeps it: every row has a key below the next
    value of the sequence. *)
Definition fresh_ids (w : world) : Prop :=
  forall r, In r (store w) -> exists i, id r = Some i /\ i < next_id w.

(** The hash of a row is the fingerprint of its title and content. *)
Definition hash_ok (r : NewsArticle) : Prop :=
  fingerprint (title r) (content r) = Some (content_hash r).

(** [NewsArticle.objects.filter(url=u).exists()] *)
Definition url_known (u : text) (s : list NewsArticle) : bool :=
  existsb (fun r => text_eqb (url r) u) s.

(** The instance that [scrape_single_source] builds from a raw article at
    time [t]. *)
Definition candidate (d : NewsArticleData) (t : datetime) : NewsArticle :=
  mkNewsArticle None (firstn 500 (d_title d)) (d_content d) (d_url d)
                (d_source d)
                (match d_published_date d with Some p => p | None => t end)
                t EmptyString None false None.

(** Two versions of a row that differ at most in the columns written by
    the deduplication ([is_duplicate], [duplicate_of], [embedding_vector]). *)
Definition same_article (r r' : NewsArticle) : Prop :=
  id r' = id r /\ title r' = title r /\ content r' = content r
  /\ url r' = url r /\ source r' = source r
  /\ published_date r' = published_date r
  /\ scraped_date r' = scraped_date r
  /\ content_hash r' = content_hash r.

(** A raw article that the database turns down whenever it is offered:
    its text cannot be encoded, a stored row already has its fingerprint,
    or a value is too long for a backend that checks lengths. *)
Definition rejected (X : externals) (d : NewsArticleData)
           (s : list NewsArticle) : bool :=
  match fingerprint (firstn 500 (d_title d)) (d_content d) with
  | None => true
  | Some h =>
      existsb (fun r => String.eqb (content_hash r) h) s
      || (db_enforces_max_length X
          && ((200 <? List.length (d_url d))%nat
              || (100 <? List.length (d_source d))%nat))
  end.

(** A raw article is settled once the pipeline will not store it any
    more: its URL is known, or the database turns it down. *)
Definition settled (X : externals) (d : NewsArticleData)
           (s : list NewsArticle) : Prop :=
  url_known (d_url d) s = true \/ rejected X d s = true.

(** Two worlds with the same table, key sequence and index. *)
Definition same_data (w w' : world) : Prop :=
  store w' = store w /\ next_id w' = next_id w /\ index w' = index w.

(** The world with [l] appended to its trace. *)
Definition after (w : world) (l : list event) : world :=
  mkWorld (store w) (next_id w) (index w) (registry w) (trace w ++ l).

(** A registered adapter whose feed holds two articles, the first one
    twice; all services are up and find nothing similar. *)
Definition feed_class : pyclass := mkClass "FeedScraper" ScraperSubclass true.

Definition raw1 : NewsArticleData :=
  mkNewsArticleData (text_of_string "Title one") (text_of_string "Body one")
                    (text_of_string "http://n/1") (text_of_string "feed")
                    (Some 5) None.

Definition raw2 : NewsArticleData :=
  mkNewsArticleData (text_of_string "Title two") (text_of_string "Body two")
                    (text_of_string "http://n/2") (text_of_string "feed")
                    None None.

Definition newsroom : externals :=
  mkExternals (fun _ _ => 0%Q) (fun _ => [1%Q]) (fun _ _ => false) false
              (fun n => Z.of_nat n) [] (fun _ => None)
              (fun _ _ => Some [raw1; raw2; raw1])
              (fun _ => Raise (ValueError ""))
              (fun _ => Raise (ValueError "")).

Definition registered_world : world :=
  mkWorld [] 1 [] (mkFactory [("feed"%string, feed_class)] true) [].



(** Three registered adapters; the fetch of the second one raises. *)
Definition alpha_class : pyclass := mkClass "AlphaScraper" ScraperSubclass true.
Definition beta_class : pyclass := mkClass "BetaScraper" ScraperSubclass true.
Definition gamma_class : pyclass := mkClass "GammaScraper" ScraperSubclass true.

Definition three_feeds : externals :=
  mkExternals (fun _ _ => 0%Q) (fun _ => [1%Q]) (fun _ _ => false) false
              (fun n => Z.of_nat n) [] (fun _ => None)
              (fun c _ =>
                 if String.eqb (cls_name c) "BetaScraper" then None
                 else if String.eqb (cls_name c) "AlphaScraper"
                      then Some [raw1]
                      else Some [raw2; raw1])
              (fun _ => Raise (ValueError ""))
              (fun _ => Raise (ValueError "")).

Definition three_sources_world : world :=
  mkWorld [] 1 []
          (mkFactory [("alpha"%string, alpha_class);
                      ("beta"%string, beta_class);
                      ("gamma"%string, gamma_class)] true) [].



(** The index is down for good; it is day 100. *)
Definition index_down : externals :=
  mkExternals (fun _ _ => 0%Q) (fun _ => [])
              (fun s _ => match s with VectorIndex => true | _ => false end)
              false (fun _ => timedelta_days 100) [] (fun _ => None)
              (fun _ _ => Some [])
              (fun _ => Raise (ValueError ""))
              (fun _ => Raise (ValueError "")).

(** [story] was scraped at the beginning of time, [recent] on day 99. *)
Definition recent : NewsArticle :=
  mkNewsArticle (Some 2) [67] [68] (text_of_string "http://b/2")
                (text_of_string "b") 11 (timedelta_days 99) hash_CD
                None false None.

Definition archive_world : world :=
  mkWorld [story; recent] 3 [_create_document story; _create_document recent]
          (mkFactory [] false) [].

(** A recent row marked as a duplicate of [story]. *)
Definition echo : NewsArticle :=
  mkNewsArticle (Some 3) [69] [70] (text_of_string "http://c/3")
                (text_of_string "c") 12 (timedelta_days 99)
                "00"%string None true (Some 1).

Definition echo_world : world :=
  mkWorld [story; recent; echo] 4
          [_create_document story; _create_document recent]
          (mkFactory [] false) [].

(** Part of the parsers package as it is in the repository: what
    [inspect.getmembers] lists, by name, for three of its modules. *)
Definition base_scraper_class : pyclass :=
  mkClass "BaseScraper" TheBaseScraper false.
Definition news_article_data_class : pyclass :=
  mkClass "NewsArticleData" UnrelatedClass false.
Definition rate_limiter_class : pyclass :=
  mkClass "RateLimiter" UnrelatedClass false.
Definition rss_feed_scraper_class : pyclass :=
  mkClass "RSSFeedScraper" ScraperSubclass false.
Definition hackernews_scraper_class : pyclass :=
  mkClass "HackerNewsScraper" ScraperSubclass true.
Definition openai_blog_scraper_class : pyclass :=
  mkClass "OpenAIBlogScraper" ScraperSubclass true.

Definition parsers_package : externals :=
  mkExternals
    (fun _ _ => 0%Q) (fun _ => []) (fun _ _ => false) false
    (fun n => Z.of_nat n)
    ["__init__.py"; "base.py"; "factory.py"; "hackernews_scraper.py";
     "openai_blog_scraper.py"; "rss_base.py"]%string
    (fun module_name =>
       if String.eqb module_name "hackernews_scraper" then
         Some [("BaseScraper", PyClass base_scraper_class);
               ("HackerNewsScraper", PyClass hackernews_scraper_class);
               ("List", PyOther);
               ("NewsArticleData", PyClass news_article_data_class);
               ("RateLimiter", PyClass rate_limiter_class);
               ("logger", PyOther)]%string
       else if String.eqb module_name "openai_blog_scraper" then
         Some [("OpenAIBlogScraper", PyClass openai_blog_scraper_class);
               ("RSSFeedScraper", PyClass rss_feed_scraper_class)]%string
       else if String.eqb module_name "rss_base" then
         Some [("BaseScraper", PyClass base_scraper_class);
               ("List", PyOther);
               ("NewsArticleData", PyClass news_article_data_class);
               ("RSSFeedScraper", PyClass rss_feed_scraper_class);
               ("feedparser", PyOther);
               ("logger", PyOther)]%string
       else None)
    (fun _ _ => Some [])
    (fun _ => Raise (ValueError ""))
    (fun _ => Raise (ValueError "")).

(** A process that has not looked at its parsers yet. *)
Definition start_world : world :=
  mkWorld [] 1 [] (mkFactory [] false) [].

(** The library parsers know one ISO date and one RFC 2822 date; the
    latter parser overflows on one input. *)
Definition calendar : externals :=
  mkExternals
    (fun _ _ => 0%Q) (fun _ => []) (fun _ _ => false) false
    (fun n => Z.of_nat n) [] (fun _ => None) (fun _ _ => Some [])
    (fun s => if String.eqb s "2023-12-01T10:30:00+00:00" then Ok 1000
              else if String.eqb s "2023-12-01T10:30:00" then Ok 1000
              else Raise (ValueError "Invalid isoformat string"))
    (fun s => if String.eqb s "Tue, 26 Aug 2024 15:21:19 +0000" then Ok 2000
              else if String.eqb s "Mon, 01 Jan 2024 00:00:00 +99999999999999999999"
                   then Raise OverflowError
              else Raise (ValueError "Invalid date value or format")).



(** A character that is not white space. *)
Definition solid (c : Z) : bool := negb (is_space c).

(** A word: not empty, no white space in it. *)
Definition word (w : text) : Prop := w <> [] /\ forallb solid w = true.

(** The clock readings of the calls that were allowed. *)
Definition granted (times : list Z) (answers : list bool) : list Z :=
  map fst (filter snd (combine times answers)).

(** The readings of [ts] that lie less than [window] before [now]. *)
Definition within (window now : Z) (ts : list Z) : list Z :=
  filter (fun req_time => now - req_time <? window) ts.

(** All the names of the registry are in lower case. *)
Definition lowercase_keys (w : world) : Prop :=
  Forall (fun k => PyStr.lower k = k) (dict_keys (_scrapers (registry w))).

(** [c] is a scraper class among the members of a module, and [k] the
    name discovery gives it. *)
Definition found_among (members : list (string * pyobj)) (k : string)
           (c : pyclass) : Prop :=
  exists name,
    In (name, PyClass c) members
    /\ cls_kind c = ScraperSubclass
    /\ scraper_name_of name = k.

(** [c] is a scraper class of a module that one of the parser files of
    [files] imports. *)
Definition found_in (X : externals) (files : list string) (k : string)
           (c : pyclass) : Prop :=
  exists filename members,
    In filename files
    /\ is_parser_file filename = true
    /\ import_members X (strip_py filename) = Some members
    /\ found_among members k c.

(*SCEN2*)

(* ================================================================== *)
(** * Properties *)

Local Open Scope monad_scope.

(** ** Test vectors *)

Example sha256_abc :
  Sha256.hexdigest [97; 98; 99] =
  "ba7816bf8f01cfea414140de5dae2223b00361a396177a9cb410ff61f20015ad"%string.
Proof. vm_compute. reflexivity. Qed.

Example sha256_empty :
  Sha256.hexdigest [] =
  "e3b0c44298fc1c149afbf4c8996fb92427ae41e4649b934ca495991b7852b855"%string.
Proof. vm_compute. reflexivity. Qed.

(** Two blocks: the 56-byte message of FIPS 180-2. *)
Example sha256_two_blocks :
  Sha256.hexdigest
    (text_of_string
       "abcdbcdecdefdefgefghfghighijhijkijkljklmklmnlmnomnopnopq") =
  "248d6a61d20638b8e5c026930c3e6039a33ce45964ff2167f6ecedd419db06c1"%string.
Proof. vm_compute. reflexivity. Qed.

(** U+00E9, U+20AC and U+1F600 in UTF-8; a lone surrogate is refused. *)
Example utf8_examples :
  Utf8.encode [233] = Some [195; 169]
  /\ Utf8.encode [8364] = Some [226; 130; 172]
  /\ Utf8.encode [128512] = Some [240; 159; 152; 128]
  /\ Utf8.encode [55296] = None.
Proof. vm_compute. repeat split. Qed.

Example pystr_examples :
  PyStr.replace "Z" "+00:00" "2023-12-01T10:30:00Z"
  = "2023-12-01T10:30:00+00:00"%string
  /\ PyStr.endswith "Z" "2023-12-01T10:30:00Z" = true
  /\ PyStr.endswith ".py" "base.py" = true
  /\ PyStr.endswith ".py" "notes.txt" = false
  /\ PyStr.lower "OpenAI_Blog" = "openai_blog"%string
  /\ PyStr.replace "aa" "b" "aaa" = "ba"%string.
Proof. vm_compute. repeat split. Qed.

(** ** Lists, sorting and the ORM *)

Lemma opt_eqb_eq (a b : option Z) : opt_eqb a b = true <-> a = b.
Proof.
  destruct a as [x|], b as [y|]; simpl; split; intro H;
    try discriminate; try reflexivity.
  - apply Z.eqb_eq in H. now subst.
  - injection H as ->. apply Z.eqb_refl.
Qed.

Lemma opt_eqb_refl (a : option Z) : opt_eqb a a = true.
Proof. now apply opt_eqb_eq. Qed.

Lemma opt_eqb_neq (a b : option Z) : opt_eqb a b = false <-> a <> b.
Proof.
  split.
  - intros H E. apply opt_eqb_eq in E. congruence.
  - intro H. destruct (opt_eqb a b) eqn:E; [|reflexivity].
    apply opt_eqb_eq in E. contradiction.
Qed.

Lemma text_eqb_eq (a b : text) : text_eqb a b = true <-> a = b.
Proof.
  unfold text_eqb. destruct (list_eq_dec Z.eq_dec a b); split; intro H;
    congruence.
Qed.

Lemma insert_by_perm {A} (before : A -> A -> bool) (x : A) (l : list A) :
  Permutation (insert_by before x l) (x :: l).
Proof.
  induction l as [|y l IH]; simpl.
  - apply Permutation_refl.
  - destruct (before x y).
    + apply Permutation_refl.
    + eapply Permutation_trans.
      * apply perm_skip. exact IH.
      * apply perm_swap.
Qed.

Lemma sort_by_perm {A} (before : A -> A -> bool) (l : list A) :
  Permutation (sort_by before l) l.
Proof.
  induction l as [|x l IH]; simpl.
  - apply perm_nil.
  - eapply Permutation_trans.
    + apply insert_by_perm.
    + now apply perm_skip.
Qed.


Lemma sort_by_nil {A} (before : A -> A -> bool) (l : list A) :
  sort_by before l = [] -> l = [].
Proof.
  intro H. apply Permutation_nil.
  rewrite <- H. apply sort_by_perm.
Qed.




Lemma objects_get_Some i s r :
  objects_get i s = Some r -> In r s /\ id r = Some i.
Proof.
  unfold objects_get. intro H. apply find_some in H.
  destruct H as [Hin He]. apply opt_eqb_eq in He. now split.
Qed.

Lemma objects_get_In i s r :
  In r s -> id r = Some i -> exists r', objects_get i s = Some r'.
Proof.
  intros Hin He. unfold objects_get.
  destruct (find (fun r0 => opt_eqb (id r0) (Some i)) s) as [r'|] eqn:E.
  - now exists r'.
  - eapply find_none in E; [|exact Hin]. simpl in E.
    rewrite He, opt_eqb_refl in E. discriminate.
Qed.

Lemma objects_get_replace_row i r s r0 :
  objects_get i s = Some r0 -> id r = Some i ->
  objects_get i (replace_row i r s) = Some r.
Proof.
  unfold objects_get, replace_row. intros H Hr.
  induction s as [|x s IH]; simpl in *; [discriminate|].
  destruct (opt_eqb (id x) (Some i)) eqn:E.
  - rewrite Hr, opt_eqb_refl. reflexivity.
  - rewrite E. now apply IH.
Qed.

(** ** Saving *)

Section SaveFacts.

Variable X : externals.

Lemma ensure_content_hash_set a w :
  content_hash a <> EmptyString ->
  ensure_content_hash a w = (Ok a, w).
Proof.
  intro H. unfold ensure_content_hash.
  destruct (String.eqb (content_hash a) "") eqn:E.
  - apply String.eqb_eq in E. contradiction.
  - reflexivity.
Qed.

Lemma fk_violation_present a s d r :
  duplicate_of a = Some d -> objects_get d s = Some r ->
  fk_violation a s = false.
Proof. unfold fk_violation. now intros -> ->. Qed.

Lemma fk_violation_stored a s r :
  In r s -> duplicate_of a = id r -> fk_violation a s = false.
Proof.
  intros Hin He. unfold fk_violation. rewrite He.
  destruct (id r) as [d|] eqn:Ed; [|reflexivity].
  destruct (objects_get_In d s r Hin Ed) as [r' ->]. reflexivity.
Qed.

(** Marking a persisted article as a duplicate of a stored row writes the
    two columns of its row and nothing else. *)
Lemma save_mark a i row orig w :
  id a = Some i ->
  content_hash a <> EmptyString ->
  objects_get i (store w) = Some row ->
  In orig (store w) ->
  save X (Some [F_is_duplicate; F_duplicate_of]) (mark a (id orig)) w
  = (Ok (mark a (id orig)),
     mkWorld (replace_row i (mark row (id orig)) (store w))
             (next_id w) (index w) (registry w)
             (trace w ++ [EvStoreUpdate i])).
Proof.
  intros Hid Hh Hrow Hin.
  unfold save, bind.
  rewrite ensure_content_hash_set by exact Hh.
  unfold model_save, bind, get_world. simpl. rewrite Hid, Hrow. simpl.
  rewrite (fk_violation_stored _ _ orig Hin) by reflexivity.
  reflexivity.
Qed.

End SaveFacts.

(** ** Hash duplicates come first *)


Section HashFirst.

Variable X : externals.
Variable vd : VectorDeduplicator.



End HashFirst.


(** ** Semantic duplicates *)

Lemma Qle_bool_false x y : Qle_bool x y = false -> (y <= x)%Q.
Proof.
  intro H. apply Qlt_le_weak, Qnot_le_lt. intro Hle.
  apply Qle_bool_iff in Hle. congruence.
Qed.

Lemma insert_by_score_sorted {A} (before : A * Q -> A * Q -> bool)
      (Hb : forall x y, before x y = Qle_bool (snd y) (snd x))
      (x : A * Q) (l : list (A * Q)) :
  StronglySorted best_first l ->
  StronglySorted best_first (insert_by before x l).
Proof.
  induction l as [|y l IH]; simpl; intro Hs.
  - constructor; constructor.
  - apply StronglySorted_inv in Hs as [Hl Hy].
    destruct (before x y) eqn:E; rewrite Hb in E.
    + apply Qle_bool_iff in E. constructor.
      * now constructor.
      * constructor; [exact E|].
        eapply Forall_impl; [|exact Hy]. intros z Hz. unfold best_first in *.
        eapply Qle_trans; eassumption.
    + apply Qle_bool_false in E. constructor.
      * now apply IH.
      * apply Forall_forall. intros z Hz.
        apply (Permutation_in _ (insert_by_perm before x l)) in Hz.
        destruct Hz as [<-|Hz]; [exact E|].
        rewrite Forall_forall in Hy. now apply Hy.
Qed.

Lemma sort_by_score_sorted {A} (before : A * Q -> A * Q -> bool)
      (Hb : forall x y, before x y = Qle_bool (snd y) (snd x))
      (l : list (A * Q)) :
  StronglySorted best_first (sort_by before l).
Proof.
  induction l as [|x l IH]; simpl.
  - constructor.
  - now apply insert_by_score_sorted.
Qed.

Lemma In_firstn {A} (k : nat) (l : list A) (x : A) :
  In x (firstn k l) -> In x l.
Proof.
  intro H. rewrite <- (firstn_skipn k l). apply in_or_app. now left.
Qed.

Lemma sorted_firstn {A} (R : A -> A -> Prop) (k : nat) (l : list A) :
  StronglySorted R l -> StronglySorted R (firstn k l).
Proof.
  revert k. induction l as [|x l IH]; intros [|k] Hs; simpl;
    try constructor.
  - apply StronglySorted_inv in Hs as [Hl _]. now apply IH.
  - apply StronglySorted_inv in Hs as [_ Hx].
    apply Forall_forall. intros y Hy. apply In_firstn in Hy.
    rewrite Forall_forall in Hx. now apply Hx.
Qed.

Lemma sorted_filter {A} (R : A -> A -> Prop) (f : A -> bool) (l : list A) :
  StronglySorted R l -> StronglySorted R (filter f l).
Proof.
  induction l as [|x l IH]; simpl; intro Hs; [constructor|].
  apply StronglySorted_inv in Hs as [Hl Hx].
  destruct (f x); [|now apply IH].
  constructor; [now apply IH|].
  apply Forall_forall. intros y Hy. apply filter_In in Hy as [Hy _].
  rewrite Forall_forall in Hx. now apply Hx.
Qed.

(** Where a resolved hit comes from. *)
Lemma resolve_hits_In a s docs r sc :
  In (r, sc) (resolve_hits a s docs) ->
  exists doc j,
    In (doc, sc) docs
    /\ meta_article_id doc = Some j
    /\ j <> 0
    /\ Some j <> id a
    /\ objects_get j s = Some r.
Proof.
  induction docs as [|[doc sc'] docs IH]; cbn [resolve_hits In];
    [intros []|].
  intro H.
  assert (In (r, sc) (resolve_hits a s docs) ->
          exists doc0 j, ((doc, sc') = (doc0, sc) \/ In (doc0, sc) docs)
                         /\ meta_article_id doc0 = Some j /\ j <> 0
                         /\ Some j <> id a /\ objects_get j s = Some r) as Hrest.
  { intro H'. destruct (IH H') as (d & j & Hd & Hrest).
    exists d, j. split; [now right | exact Hrest]. }
  destruct (meta_article_id doc) as [j|] eqn:Ej; [|now apply Hrest].
  destruct (negb (j =? 0) && negb (opt_eqb (Some j) (id a))) eqn:Eg;
    [|now apply Hrest].
  destruct (objects_get j s) as [r'|] eqn:Eo; [|now apply Hrest].
  destruct H as [H|H]; [|now apply Hrest].
  injection H as -> ->.
  apply andb_true_iff in Eg as [G1 G2].
  apply negb_true_iff in G1, G2.
  apply Z.eqb_neq in G1. apply opt_eqb_neq in G2.
  exists doc, j. repeat split; auto.
Qed.

Lemma resolve_hits_sorted a s docs :
  StronglySorted best_first docs ->
  StronglySorted best_first (resolve_hits a s docs).
Proof.
  induction docs as [|[doc sc] docs IH]; cbn [resolve_hits]; intro Hs;
    [constructor|].
  apply StronglySorted_inv in Hs as [Hl Hx].
  destruct (meta_article_id doc) as [j|]; [|now apply IH].
  destruct (negb (j =? 0) && negb (opt_eqb (Some j) (id a)));
    [|now apply IH].
  destruct (objects_get j s) as [r'|]; [|now apply IH].
  constructor; [now apply IH|].
  apply Forall_forall. intros [r sc'] Hy.
  apply resolve_hits_In in Hy as (d & j' & Hd & _).
  rewrite Forall_forall in Hx. apply (Hx _ Hd).
Qed.

Section Semantic.

Variable X : externals.
Variable vd : VectorDeduplicator.

Lemma length_snoc {A} (l : list A) (x : A) :
  List.length (l ++ [x]) = S (List.length l).
Proof. rewrite length_app. simpl. apply Nat.add_1_r. Qed.

(** What [find_similar_articles] does, case by case. *)
Lemma find_similar_articles_eq a k w :
  find_similar_articles X vd a k w =
  let q := _create_searchable_text a in
  let n := List.length (trace w) in
  if fails X Embedding n then
    (Ok [], mkWorld (store w) (next_id w) (index w) (registry w)
                    (trace w ++ [EvEmbed q; EvLog ERROR MsgSearchError]))
  else if fails X VectorIndex (S n) then
    (Ok [], mkWorld (store w) (next_id w) (index w) (registry w)
                    (trace w ++ [EvEmbed q; EvIndexQuery q;
                                 EvLog ERROR MsgSearchError]))
  else
    (Ok (resolve_hits a (store w)
           (filter (fun ps => Qle_bool (similarity_threshold vd) (snd ps))
              (firstn k (sort_by higher_score
                 (map (fun p => (p, relevance X q (page_content p)))
                      (index w)))))),
     mkWorld (store w) (next_id w) (index w) (registry w)
             (trace w ++ [EvEmbed q; EvIndexQuery q])).
Proof.
  unfold find_similar_articles, similarity_search_with_relevance_scores,
    try_except, bind, call, log, emit, get_world, ret.
  cbn [trace store next_id index registry].
  destruct (fails X Embedding (List.length (trace w))).
  - cbn. now rewrite <- app_assoc.
  - cbn [trace store next_id index registry]. rewrite length_snoc.
    destruct (fails X VectorIndex (S (List.length (trace w)))).
    + cbn. now rewrite <- !app_assoc.
    + cbn. now rewrite <- !app_assoc.
Qed.

(** The contract of [find_similar_articles]: it always returns, touches
    neither table nor index, and its hits are stored rows other than the
    article, at or above the threshold, best first. *)
Lemma find_similar_articles_hits a k w :
  exists hits t,
    find_similar_articles X vd a k w
    = (Ok hits, mkWorld (store w) (next_id w) (index w) (registry w)
                        (trace w ++ t))
    /\ Forall (fun h => (similarity_threshold vd <= snd h)%Q
                        /\ id (fst h) <> id a
                        /\ In (fst h) (store w)) hits
    /\ StronglySorted best_first hits.
Proof.
  rewrite find_similar_articles_eq. cbv zeta.
  destruct (fails X Embedding _).
  { eexists _, _. split; [reflexivity|]. split; constructor. }
  destruct (fails X VectorIndex _).
  { eexists _, _. split; [reflexivity|]. split; constructor. }
  eexists _, _. split; [reflexivity|]. split.
  - apply Forall_forall. intros [r sc] Hin.
    apply resolve_hits_In in Hin as (doc & j & Hd & Hm & Hj & Hne & Hget).
    apply filter_In in Hd as [_ Hthr]. cbn [snd] in Hthr.
    apply Qle_bool_iff in Hthr.
    apply objects_get_Some in Hget as [Hr Hid].
    cbn [fst snd]. repeat split; auto. congruence.
  - apply resolve_hits_sorted, sorted_filter, sorted_firstn,
      sort_by_score_sorted.
    reflexivity.
Qed.

(** C4. A persisted article is marked as a semantic duplicate exactly when
    the similarity search ([find_similar_articles]) returns at least one
    hit. Every hit scores at or above the threshold, is a stored row other
    than the article itself, and the hits are ordered best first; the
    article is marked as a duplicate of the first, top-scoring hit. With
    the default threshold a score of 0.85 makes a duplicate and a score of
    0.8499 does not. *)
Theorem semantic_duplicate_iff_hit a i row w :
  id a = Some i ->
  objects_get i (store w) = Some row ->
  content_hash a <> EmptyString ->
  (exists hits w1,
      find_similar_articles X vd a default_limit w = (Ok hits, w1)
      /\ store w1 = store w
      /\ Forall (fun h => (similarity_threshold vd <= snd h)%Q
                          /\ id (fst h) <> id a
                          /\ In (fst h) (store w)) hits
      /\ StronglySorted best_first hits
      /\ exists marked a' w',
          check_and_mark_duplicates X vd a w = (Ok (marked, a'), w')
          /\ (marked = true <-> hits <> [])
          /\ match hits with
             | [] => a' = a /\ w' = w1
             | (orig, score) :: rest =>
                 a' = mark a (id orig)
                 /\ objects_get i (store w') = Some (mark row (id orig))
                 /\ is_duplicate (mark row (id orig)) = true
                 /\ duplicate_of (mark row (id orig)) = id orig
                 /\ Forall (fun h => (snd h <= score)%Q) rest
             end)
  /\ fst (check_and_mark_duplicates (scored (85 # 100))
            default_vector_deduplicator paraphrase paraphrase_world)
     = Ok (true, mark paraphrase (id story))
  /\ fst (check_and_mark_duplicates (scored (8499 # 10000))
            default_vector_deduplicator paraphrase paraphrase_world)
     = Ok (false, paraphrase).
Proof.
  intros Hid Hrow Hh. split; [|split; vm_compute; reflexivity].
  destruct (find_similar_articles_hits a default_limit w)
    as (hits & t & Heq & Hall & Hsorted).
  eexists hits, _. split; [exact Heq|]. split; [reflexivity|].
  split; [exact Hall|]. split; [exact Hsorted|].
  unfold check_and_mark_duplicates, bind. rewrite Heq.
  destruct hits as [|[orig score] rest].
  - eexists false, a, _. split; [reflexivity|]. split; [|now split].
    split; [discriminate | congruence].
  - apply Forall_inv in Hall as Ho. cbn [fst snd] in Ho.
    destruct Ho as (_ & _ & Hin).
    fold (mark a (id orig)).
    rewrite (save_mark X a i row orig _ Hid Hh); [|exact Hrow|exact Hin].
    unfold log, emit, ret. cbn [store next_id index registry trace].
    eexists true, _, _. split; [reflexivity|].
    split; [split; [discriminate | reflexivity]|].
    split; [reflexivity|]. cbn [store].
    split.
    { apply objects_get_Some in Hrow as Hrow'. destruct Hrow' as [_ Hri].
      eapply objects_get_replace_row; [exact Hrow | exact Hri]. }
    split; [reflexivity|]. split; [reflexivity|].
    apply StronglySorted_inv in Hsorted as [_ Hs]. exact Hs.
Qed.

End Semantic.

Lemma semantic_duplicate_iff_hit_witness :
  (exists hits w1,
      find_similar_articles (scored (9 # 10)) default_vector_deduplicator
        paraphrase default_limit paraphrase_world = (Ok hits, w1)
      /\ store w1 = store paraphrase_world
      /\ Forall (fun h =>
                   (similarity_threshold default_vector_deduplicator
                    <= snd h)%Q
                   /\ id (fst h) <> id paraphrase
                   /\ In (fst h) (store paraphrase_world)) hits
      /\ StronglySorted best_first hits
      /\ exists marked a' w',
          check_and_mark_duplicates (scored (9 # 10))
            default_vector_deduplicator paraphrase paraphrase_world
          = (Ok (marked, a'), w')
          /\ (marked = true <-> hits <> [])
          /\ match hits with
             | [] => a' = paraphrase /\ w' = w1
             | (orig, score) :: rest =>
                 a' = mark paraphrase (id orig)
                 /\ objects_get 2 (store w')
                    = Some (mark paraphrase (id orig))
                 /\ is_duplicate (mark paraphrase (id orig)) = true
                 /\ duplicate_of (mark paraphrase (id orig)) = id orig
                 /\ Forall (fun h => (snd h <= score)%Q) rest
             end)
  /\ fst (check_and_mark_duplicates (scored (85 # 100))
            default_vector_deduplicator paraphrase paraphrase_world)
     = Ok (true, mark paraphrase (id story))
  /\ fst (check_and_mark_duplicates (scored (8499 # 10000))
            default_vector_deduplicator paraphrase paraphrase_world)
     = Ok (false, paraphrase).
Proof.
  apply (semantic_duplicate_iff_hit (scored (9 # 10))
           default_vector_deduplicator paraphrase 2 paraphrase
           paraphrase_world).
  - reflexivity.
  - reflexivity.
  - discriminate.
Defined.

(** ** Failing services *)

Lemma upserted_indexed a ix w :
  index w = upserted (_create_document a) ix -> indexed a w = true.
Proof.
  unfold indexed, upserted. intros ->. cbn [_create_document pt_id].
  destruct (existsb (fun p => opt_eqb (pt_id p) (id a)) ix) eqn:E.
  - apply existsb_exists in E as (p & Hin & Hp).
    apply existsb_exists. exists (_create_document a). split.
    + apply in_map_iff. exists p. split; [|exact Hin]. now rewrite Hp.
    + apply opt_eqb_refl.
  - rewrite existsb_app. cbn. now rewrite opt_eqb_refl, orb_true_r.
Qed.

Section Failures.

Variable X : externals.
Variable vd : VectorDeduplicator.

Lemma save_embedding a i row v w :
  id a = Some i ->
  content_hash a <> EmptyString ->
  objects_get i (store w) = Some row ->
  save X (Some [F_embedding_vector]) (with_embedding_vector a v) w
  = (Ok (with_embedding_vector a v),
     mkWorld (replace_row i (with_embedding_vector row v) (store w))
             (next_id w) (index w) (registry w)
             (trace w ++ [EvStoreUpdate i])).
Proof.
  intros Hid Hh Hrow. unfold save, bind.
  rewrite ensure_content_hash_set by exact Hh.
  unfold model_save, bind, get_world. simpl. rewrite Hid, Hrow. reflexivity.
Qed.

(** What [add_article_to_index] does to a persisted article, case by
    case. *)
Lemma add_article_to_index_eq a i row w :
  id a = Some i ->
  content_hash a <> EmptyString ->
  objects_get i (store w) = Some row ->
  add_article_to_index X a w =
  let doc := _create_document a in
  let pc := page_content doc in
  let n := List.length (trace w) in
  if fails X Embedding n then
    (Ok (false, a),
     mkWorld (store w) (next_id w) (index w) (registry w)
             (trace w ++ [EvEmbed pc; EvLog ERROR MsgAddIndexError]))
  else if fails X VectorIndex (S n) then
    (Ok (false, a),
     mkWorld (store w) (next_id w) (index w) (registry w)
             (trace w ++ [EvEmbed pc; EvIndexUpsert (id a);
                          EvLog ERROR MsgAddIndexError]))
  else if fails X Embedding (S (S n)) then
    (Ok (true, a),
     mkWorld (store w) (next_id w) (upserted doc (index w)) (registry w)
             (trace w ++ [EvEmbed pc; EvIndexUpsert (id a); EvEmbed pc;
                          EvLog WARNING MsgCouldNotStoreEmbedding;
                          EvLog INFO (MsgAddedToIndex (title a))]))
  else
    (Ok (true, with_embedding_vector a (Some (embedding X pc))),
     mkWorld (replace_row i (with_embedding_vector row
                               (Some (embedding X pc))) (store w))
             (next_id w) (upserted doc (index w)) (registry w)
             (trace w ++ [EvEmbed pc; EvIndexUpsert (id a); EvEmbed pc;
                          EvStoreUpdate i;
                          EvLog INFO (MsgAddedToIndex (title a))])).
Proof.
  intros Hid Hh Hrow. cbv zeta.
  unfold add_article_to_index, add_documents, try_except, bind, call, log,
    emit, get_world, ret, put_index.
  cbn [trace store next_id index registry _create_document pt_id
       page_content].
  destruct (fails X Embedding (List.length (trace w))).
  { cbn. now rewrite <- app_assoc. }
  cbn [trace store next_id index registry]. rewrite length_snoc.
  destruct (fails X VectorIndex (S (List.length (trace w)))).
  { cbn. now rewrite <- !app_assoc. }
  cbn [trace store next_id index registry].
  cbn [trace store next_id index registry]. rewrite !length_snoc.
  destruct (fails X Embedding (S (S (List.length (trace w))))).
  { cbn. now rewrite <- !app_assoc. }
  rewrite (save_embedding a i row) by assumption.
  cbn. now rewrite <- !app_assoc.
Qed.


Lemma length_snoc3 {A} (l : list A) (x y z : A) :
  List.length (l ++ [x; y; z]) = S (S (S (List.length l))).
Proof. rewrite length_app. cbn. lia. Qed.

Lemma skipn_length_app {A} (l l' : list A) :
  skipn (List.length l) (l ++ l') = l'.
Proof. induction l; simpl; auto. Qed.

Lemma new_events_app w w' l :
  trace w' = trace w ++ l -> new_events w w' = l.
Proof. unfold new_events. intros ->. apply skipn_length_app. Qed.

(** What [check_and_mark_duplicates] does to a persisted article, by the
    outcome of the search. *)
Lemma check_and_mark_duplicates_eq a i row w :
  id a = Some i ->
  content_hash a <> EmptyString ->
  objects_get i (store w) = Some row ->
  check_and_mark_duplicates X vd a w =
  match find_similar_articles X vd a default_limit w with
  | (Ok [], w1) => (Ok (false, a), w1)
  | (Ok ((orig, score) :: _), w1) =>
      (Ok (true, mark a (id orig)),
       mkWorld (replace_row i (mark row (id orig)) (store w1))
               (next_id w1) (index w1) (registry w1)
               (trace w1 ++ [EvStoreUpdate i;
                             EvLog INFO (MsgMarkedDuplicate
                                           (title a) (title orig) score)]))
  | (Raise e, w1) => (Raise e, w1)
  end.
Proof.
  intros Hid Hh Hrow.
  destruct (find_similar_articles_hits X vd a default_limit w)
    as (hits & t & Heq & Hall & _).
  unfold check_and_mark_duplicates, bind. rewrite Heq.
  destruct hits as [|[orig score] rest]; [reflexivity|].
  apply Forall_inv in Hall. cbn [fst snd] in Hall.
  destruct Hall as (_ & _ & Hin).
  fold (mark a (id orig)).
  rewrite (save_mark X a i row orig _ Hid Hh); [|exact Hrow|exact Hin].
  unfold log, emit, ret. cbn [store next_id index registry trace].
  now rewrite <- app_assoc.
Qed.

Lemma raised_in_app n l1 l2 :
  raised_in X n (l1 ++ l2)
  = raised_in X n l1 || raised_in X (n + List.length l1) l2.
Proof.
  revert n. induction l1 as [|e l1 IH]; intro n; cbn [raised_in app].
  - cbn. now rewrite Nat.add_0_r.
  - rewrite IH. cbn [List.length]. rewrite Nat.add_succ_r.
    now rewrite orb_assoc.
Qed.

(** The search part of a run: a failure empties the hits and is logged. *)
Lemma search_outcome a k w :
  exists hits l1,
    find_similar_articles X vd a k w
    = (Ok hits, mkWorld (store w) (next_id w) (index w) (registry w)
                        (trace w ++ l1))
    /\ (raised_in X (List.length (trace w)) l1 = true ->
        hits = [] /\ In (EvLog ERROR MsgSearchError) l1)
    /\ ~ In (EvLog ERROR MsgAddIndexError) l1.
Proof.
  rewrite find_similar_articles_eq. cbv zeta.
  destruct (fails X Embedding _) eqn:E1.
  { eexists _, _. split; [reflexivity|]. split.
    - intros _. split; [reflexivity|]. cbn. auto.
    - cbn. intros [H|[H|[]]]; discriminate. }
  destruct (fails X VectorIndex _) eqn:E2.
  { eexists _, _. split; [reflexivity|]. split.
    - intros _. split; [reflexivity|]. cbn. auto.
    - cbn. intros [H|[H|[H|[]]]]; discriminate. }
  eexists _, _. split; [reflexivity|]. split.
  - cbn [raised_in service_of]. rewrite E1, E2. discriminate.
  - cbn. intros [H|[H|[]]]; discriminate.
Qed.

(** The indexing part of a run on a persisted article. *)
Lemma indexing_outcome a i row w :
  id a = Some i ->
  content_hash a <> EmptyString ->
  objects_get i (store w) = Some row ->
  exists b a' w' l2,
    add_article_to_index X a w = (Ok (b, a'), w')
    /\ trace w' = trace w ++ l2
    /\ (exists row', objects_get i (store w') = Some row'
                     /\ is_duplicate row' = is_duplicate row
                     /\ duplicate_of row' = duplicate_of row)
    /\ (raised_in X (List.length (trace w)) l2 = true ->
        In (EvLog ERROR MsgAddIndexError) l2
        \/ In (EvLog WARNING MsgCouldNotStoreEmbedding) l2)
    /\ (In (EvLog ERROR MsgAddIndexError) l2 -> index w' = index w)
    /\ (~ In (EvLog ERROR MsgAddIndexError) l2 -> indexed a w' = true).
Proof.
  intros Hid Hh Hrow.
  rewrite (add_article_to_index_eq a i row w Hid Hh Hrow). cbv zeta.
  destruct (fails X Embedding (List.length (trace w))) eqn:E1.
  { eexists _, _, _, _. split; [reflexivity|]. split; [reflexivity|].
    split; [exists row; cbn [store]; auto|]. cbn. repeat split; auto.
    all: try (intro H; exfalso; apply H; auto). }
  destruct (fails X VectorIndex _) eqn:E2.
  { eexists _, _, _, _. split; [reflexivity|]. split; [reflexivity|].
    split; [exists row; cbn [store]; auto|]. cbn. repeat split; auto.
    all: try (intro H; exfalso; apply H; auto). }
  destruct (fails X Embedding (S (S _))) eqn:E3.
  { eexists _, _, _, _. split; [reflexivity|]. split; [reflexivity|].
    split; [exists row; cbn [store]; auto|]. cbn [index]. repeat split.
    - intros _. cbn. auto 10.
    - cbn. intros [H|[H|[H|[H|[H|[]]]]]]; discriminate.
    - intros _. eapply upserted_indexed. reflexivity. }
  eexists _, _, _, _. split; [reflexivity|]. split; [reflexivity|].
  cbn [store index]. split.
  { eexists. split.
    - apply objects_get_Some in Hrow as Hrow'. destruct Hrow' as [_ Hri].
      eapply objects_get_replace_row; [exact Hrow | exact Hri].
    - now split. }
  repeat split.
  - cbn [raised_in service_of]. rewrite E1, E2, E3. discriminate.
  - cbn. intros [H|[H|[H|[H|[H|[]]]]]]; discriminate.
  - intros _. eapply upserted_indexed. reflexivity.
Qed.

(** C8, as the code has it. When the embedding service or the vector index
    raises while a persisted article without hash duplicate is processed,
    the failure stays inside: the call returns [False], the article's row
    is still there with its [is_duplicate] and [duplicate_of] untouched,
    and a record is logged (an error for the search and for the indexing,
    a warning when only the embedding could not be stored). The article is
    left out of the index when the indexing itself failed; when only the
    search failed, or only the later embedding call, it is in the index
    afterwards. *)
Theorem semantic_failure_degrades a i row w res w' :
  id a = Some i ->
  content_hash a <> EmptyString ->
  objects_get i (store w) = Some row ->
  fst (find_hash_duplicates a w) = Ok None ->
  process_article_for_duplicates X vd a w = (res, w') ->
  raised_in X (List.length (trace w)) (new_events w w') = true ->
  (exists a', res = Ok (false, a'))
  /\ (exists row', objects_get i (store w') = Some row'
                   /\ is_duplicate row' = is_duplicate row
                   /\ duplicate_of row' = duplicate_of row)
  /\ (In (EvLog ERROR MsgSearchError) (new_events w w')
      \/ In (EvLog ERROR MsgAddIndexError) (new_events w w')
      \/ In (EvLog WARNING MsgCouldNotStoreEmbedding) (new_events w w'))
  /\ (In (EvLog ERROR MsgAddIndexError) (new_events w w') ->
      index w' = index w)
  /\ (~ In (EvLog ERROR MsgAddIndexError) (new_events w w') ->
      indexed a w' = true).
Proof.
  intros Hid Hh Hrow Hfind.
  unfold find_hash_duplicates, try_except, bind, get_world, ret in Hfind.
  cbn [fst] in Hfind. injection Hfind as Hfind.
  unfold process_article_for_duplicates, bind.
  unfold find_hash_duplicates at 1. unfold try_except, bind, get_world, ret.
  rewrite Hfind.
  rewrite (check_and_mark_duplicates_eq a i row w Hid Hh Hrow).
  destruct (search_outcome a default_limit w)
    as (hits & l1 & Heq & Hr1 & Hn1).
  rewrite Heq. destruct hits as [|[orig score] rest].
  - cbn [fst snd].
    set (w1 := mkWorld (store w) (next_id w) (index w) (registry w)
                       (trace w ++ l1)).
    destruct (indexing_outcome a i row w1 Hid Hh Hrow)
      as (b & a' & w2 & l2 & Heq2 & Ht & Hrow' & Hr2 & Hix & Hind).
    rewrite Heq2. intro Hrun. injection Hrun as <- <-.
    assert (new_events w w2 = l1 ++ l2) as Hnew.
    { apply new_events_app. rewrite Ht. unfold w1. cbn [trace].
      now rewrite app_assoc. }
    rewrite Hnew. intro Hraised.
    rewrite raised_in_app in Hraised.
    split; [now exists a'|]. split; [exact Hrow'|]. split; [|split].
    + apply orb_true_iff in Hraised as [H|H].
      * left. apply in_or_app. left. now apply Hr1.
      * unfold w1 in Hr2. cbn [trace] in Hr2. rewrite length_app in Hr2.
        destruct (Hr2 H) as [H'|H'].
        -- right. left. apply in_or_app. now right.
        -- right. right. apply in_or_app. now right.
    + intro Hin. apply in_app_or in Hin as [Hin|Hin]; [contradiction|].
      now rewrite (Hix Hin).
    + intro Hnin. apply Hind. intro Hin. apply Hnin, in_or_app. now right.
  - cbn [fst snd]. intro Hrun. injection Hrun as <- <-.
    intro Hraised. exfalso.
    erewrite new_events_app in Hraised
      by (cbn [trace]; rewrite <- app_assoc; reflexivity).
    rewrite raised_in_app in Hraised. cbn in Hraised.
    rewrite orb_false_r in Hraised.
    destruct (Hr1 Hraised) as [Hnil _]. discriminate.
Qed.

End Failures.

(** C8, as the spec states it, does not hold: the search of this run
    fails, the failure is logged, and the article is indexed all the same. *)
Lemma search_failure_still_indexes :
  let (res, w') := process_article_for_duplicates
                     down_at_first default_vector_deduplicator
                     paraphrase lonely_world in
  raised_in down_at_first 0 (new_events lonely_world w') = true
  /\ In (EvLog ERROR MsgSearchError) (new_events lonely_world w')
  /\ fst (find_hash_duplicates paraphrase lonely_world) = Ok None
  /\ (exists a', res = Ok (false, a'))
  /\ indexed paraphrase lonely_world = false
  /\ indexed paraphrase w' = true.
Proof.
  vm_compute. repeat split; auto. now eexists.
Qed.

Lemma semantic_failure_degrades_witness :
  (exists a',
      fst (process_article_for_duplicates down_at_first
             default_vector_deduplicator paraphrase lonely_world)
      = Ok (false, a'))
  /\ (exists row',
         objects_get 2
           (store (snd (process_article_for_duplicates down_at_first
                          default_vector_deduplicator paraphrase
                          lonely_world)))
         = Some row'
         /\ is_duplicate row' = is_duplicate paraphrase
         /\ duplicate_of row' = duplicate_of paraphrase).
Proof.
  destruct (semantic_failure_degrades down_at_first
              default_vector_deduplicator paraphrase 2 paraphrase
              lonely_world
              (fst (process_article_for_duplicates down_at_first
                      default_vector_deduplicator paraphrase lonely_world))
              (snd (process_article_for_duplicates down_at_first
                      default_vector_deduplicator paraphrase lonely_world)))
    as (H1 & H2 & _).
  - reflexivity.
  - discriminate.
  - reflexivity.
  - reflexivity.
  - apply surjective_pairing.
  - vm_compute. reflexivity.
  - split; [exact H1 | exact H2].
Defined.

(** ** The first save and the later ones *)

Lemma hexdigest_length bytes : String.length (Sha256.hexdigest bytes) = 64%nat.
Proof. reflexivity. Qed.

Lemma hexdigest_not_empty bytes : Sha256.hexdigest bytes <> EmptyString.
Proof.
  intro H. pose proof (hexdigest_length bytes) as L. rewrite H in L.
  discriminate.
Qed.

Lemma fingerprint_not_empty t c h : fingerprint t c = Some h -> h <> EmptyString.
Proof.
  unfold fingerprint. destruct (Utf8.encode (t ++ c)); [|discriminate].
  intro H. injection H as <-. apply hexdigest_not_empty.
Qed.

Lemma fingerprint_length t c h :
  fingerprint t c = Some h -> String.length h = 64%nat.
Proof.
  unfold fingerprint. destruct (Utf8.encode (t ++ c)); [|discriminate].
  intro H. injection H as <-. apply hexdigest_length.
Qed.

Section Saving.

Variable X : externals.

(** The first [save()] of a fresh instance, case by case. *)
Lemma save_insert_eq a w :
  id a = None ->
  content_hash a = EmptyString ->
  save X None a w =
  match fingerprint (title a) (content a) with
  | None => (Raise UnicodeEncodeError, w)
  | Some h =>
      let a' := with_id (with_content_hash a h) (Some (next_id w)) in
      if unique_violation a' (store w) then (Raise IntegrityError, w)
      else if fk_violation a' (store w) then (Raise IntegrityError, w)
      else if db_enforces_max_length X && too_long a'
           then (Raise DataError, w)
      else (Ok a', mkWorld (store w ++ [a']) (next_id w + 1) (index w)
                           (registry w)
                           (trace w ++ [EvStoreInsert (next_id w)]))
  end.
Proof.
  intros Hid Hh. unfold save, ensure_content_hash, bind. rewrite Hh.
  cbn [String.eqb].
  destruct (fingerprint (title a) (content a)) as [h|]; [|reflexivity].
  unfold ret, model_save, bind, get_world.
  cbn [id with_content_hash]. rewrite Hid. unfold check_row. cbv zeta.
  destruct (unique_violation _ _); [reflexivity|].
  destruct (fk_violation _ _); [reflexivity|].
  destruct (db_enforces_max_length X && too_long _); reflexivity.
Qed.

(** [ensure_content_hash] only ever fills an empty hash. *)
Lemma ensure_content_hash_result a w r w' :
  ensure_content_hash a w = (r, w') ->
  w' = w
  /\ match r with
     | Ok a' =>
         (content_hash a = EmptyString ->
          fingerprint (title a) (content a) = Some (content_hash a'))
         /\ (content_hash a <> EmptyString -> a' = a)
         /\ a' = with_content_hash a (content_hash a')
     | Raise _ => content_hash a = EmptyString
     end.
Proof.
  unfold ensure_content_hash.
  destruct (String.eqb (content_hash a) "") eqn:E.
  - apply String.eqb_eq in E.
    destruct (fingerprint (title a) (content a)) as [h|] eqn:F;
      intro H; injection H as <- <-; split; auto.
    cbn. repeat split; auto. intro N. contradiction.
  - apply String.eqb_neq in E. intro H. injection H as <- <-.
    split; auto. repeat split; auto; try contradiction.
    now destruct a.
Qed.

(** [Model.save] returns the instance with at most its key filled in. *)
Lemma model_save_hash uf a w a' w' :
  model_save X uf a w = (Ok a', w') -> content_hash a' = content_hash a.
Proof.
  unfold model_save, bind, get_world, check_row, put_store, put_next_id,
    emit, ret, raise.
  destruct uf as [fs|], (id a) as [i|]; cbv zeta.
  - destruct (objects_get i (store w)); [|discriminate].
    destruct (existsb _ fs && fk_violation _ _); [discriminate|].
    intro H. now injection H as <- _.
  - discriminate.
  - destruct (objects_get i (store w)).
    + destruct (unique_violation _ _); [discriminate|].
      destruct (fk_violation _ _); [discriminate|].
      destruct (db_enforces_max_length X && too_long _); [discriminate|].
      intro H. now injection H as <- _.
    + destruct (unique_violation _ _); [discriminate|].
      destruct (fk_violation _ _); [discriminate|].
      destruct (db_enforces_max_length X && too_long _); [discriminate|].
      intro H. now injection H as <- _.
  - destruct (unique_violation _ _); [discriminate|].
    destruct (fk_violation _ _); [discriminate|].
    destruct (db_enforces_max_length X && too_long _); [discriminate|].
    intro H. now injection H as <- _.
Qed.

(** No [save] replaces a hash that is there. *)
Lemma save_keeps_hash uf a w a' w' :
  content_hash a <> EmptyString ->
  save X uf a w = (Ok a', w') ->
  content_hash a' = content_hash a.
Proof.
  intros Hh. unfold save, bind.
  rewrite ensure_content_hash_set by exact Hh.
  apply model_save_hash.
Qed.

End Saving.

(** ** One raw article through the pipeline *)

Lemma same_article_refl r : same_article r r.
Proof. unfold same_article. tauto. Qed.

Lemma replace_row_other i r s :
  (forall x, In x s -> id x <> Some i) -> replace_row i r s = s.
Proof.
  intro H. unfold replace_row. induction s as [|x s IH]; [reflexivity|].
  cbn [map]. rewrite IH by (intros y Hy; apply H; now right).
  destruct (opt_eqb (id x) (Some i)) eqn:E; [|reflexivity].
  apply opt_eqb_eq in E. exfalso. apply (H x); [now left | exact E].
Qed.

Lemma replace_row_last i r a s :
  (forall x, In x s -> id x <> Some i) -> id a = Some i ->
  replace_row i r (s ++ [a]) = s ++ [r].
Proof.
  intros H Ha. unfold replace_row. rewrite map_app.
  fold (replace_row i r s). rewrite replace_row_other by exact H.
  cbn. now rewrite Ha, opt_eqb_refl.
Qed.

Lemma objects_get_last i a s :
  (forall x, In x s -> id x <> Some i) -> id a = Some i ->
  objects_get i (s ++ [a]) = Some a.
Proof.
  intros H Ha. unfold objects_get. induction s as [|x s IH]; cbn.
  - now rewrite Ha, opt_eqb_refl.
  - destruct (opt_eqb (id x) (Some i)) eqn:E.
    + apply opt_eqb_eq in E. exfalso. apply (H x); [now left | exact E].
    + apply IH. intros y Hy. apply H. now right.
Qed.

Lemma fresh_ids_other w r :
  fresh_ids w -> In r (store w) -> id r <> Some (next_id w).
Proof.
  intros Hf Hin E. destruct (Hf r Hin) as (i & Hi & Hlt).
  rewrite Hi in E. injection E as ->. lia.
Qed.

Lemma filter_nil {A} (f : A -> bool) (l : list A) :
  (forall x, In x l -> f x = false) -> filter f l = [].
Proof.
  induction l as [|x l IH]; intro H; cbn; [reflexivity|].
  rewrite (H x) by now left. apply IH. intros y Hy. apply H. now right.
Qed.

(** A row that passed the unique constraint has no hash duplicate. *)
Lemma no_hash_duplicate_after_insert a' s w :
  (forall x, In x s -> id x <> id a') ->
  unique_violation a' s = false ->
  store w = s ++ [a'] ->
  find_hash_duplicates a' w = (Ok None, w).
Proof.
  intros Hids Hu Hs.
  unfold find_hash_duplicates, try_except, bind, get_world, ret.
  unfold objects_filter. rewrite Hs, filter_nil; [reflexivity|].
  intros x Hx. apply in_app_or in Hx as [Hx|[<-|[]]].
  - unfold unique_violation in Hu.
    assert (negb (opt_eqb (id x) (id a'))
            && (text_eqb (url x) (url a')
                || String.eqb (content_hash x) (content_hash a')) = false)
      as H.
    { destruct (negb (opt_eqb (id x) (id a')) && _) eqn:E; [|reflexivity].
      rewrite <- Hu. symmetry. apply existsb_exists. now exists x. }
    assert (opt_eqb (id x) (id a') = false) as Hne
        by (apply opt_eqb_neq; now apply Hids).
    rewrite Hne in *. cbn [negb andb] in H.
    apply orb_false_iff in H as [_ H]. now rewrite H.
  - now rewrite opt_eqb_refl, andb_false_r.
Qed.

Section OneArticle.

Variable X : externals.
Variable vd : VectorDeduplicator.

Lemma add_article_to_index_store a i row w :
  id a = Some i ->
  content_hash a <> EmptyString ->
  objects_get i (store w) = Some row ->
  exists b a2 w' l2,
    add_article_to_index X a w = (Ok (b, a2), w')
    /\ trace w' = trace w ++ l2
    /\ next_id w' = next_id w
    /\ registry w' = registry w
    /\ (store w' = store w
        \/ exists v, store w'
                     = replace_row i (with_embedding_vector row v) (store w)).
Proof.
  intros Hid Hh Hrow.
  rewrite (add_article_to_index_eq X a i row w Hid Hh Hrow). cbv zeta.
  destruct (fails X Embedding (List.length (trace w))).
  { eexists _, _, _, _. repeat split; try reflexivity. now left. }
  destruct (fails X VectorIndex _).
  { eexists _, _, _, _. repeat split; try reflexivity. now left. }
  destruct (fails X Embedding (S (S _))).
  { eexists _, _, _, _. repeat split; try reflexivity. now left. }
  eexists _, _, _, _. repeat split; try reflexivity. right. now eexists.
Qed.

(** Deduplication of the row that was just inserted: it never raises, and
    it writes to that row only. *)
Lemma process_inserted a' i s w1 :
  store w1 = s ++ [a'] ->
  id a' = Some i ->
  (forall x, In x s -> id x <> Some i) ->
  unique_violation a' s = false ->
  content_hash a' <> EmptyString ->
  exists b a2 row2 w2 l,
    process_article_for_duplicates X vd a' w1 = (Ok (b, a2), w2)
    /\ store w2 = s ++ [row2]
    /\ same_article a' row2
    /\ next_id w2 = next_id w1
    /\ registry w2 = registry w1
    /\ trace w2 = trace w1 ++ l.
Proof.
  intros Hs Hid Hids Hu Hh.
  assert (objects_get i (store w1) = Some a') as Hrow
      by (rewrite Hs; now apply objects_get_last).
  unfold process_article_for_duplicates, bind.
  rewrite (no_hash_duplicate_after_insert a' s w1);
    [|intros x Hx; rewrite Hid; now apply Hids|exact Hu|exact Hs].
  rewrite (check_and_mark_duplicates_eq X vd a' i a' w1 Hid Hh Hrow).
  destruct (search_outcome X vd a' default_limit w1)
    as (hits & l1 & Heq & _ & _).
  rewrite Heq. destruct hits as [|[orig score] rest]; cbn [fst snd].
  - set (w1' := mkWorld (store w1) (next_id w1) (index w1) (registry w1)
                        (trace w1 ++ l1)).
    destruct (add_article_to_index_store a' i a' w1' Hid Hh Hrow)
      as (b & a2 & w' & l2 & Heq2 & Ht & Hn & Hr & Hst).
    rewrite Heq2. unfold ret.
    destruct Hst as [Hst|[v Hst]].
    + exists false, (snd (b, a2)), a', w', (l1 ++ l2).
      repeat split; try apply same_article_refl; auto.
      * rewrite Hst. exact Hs.
      * rewrite Ht. unfold w1'. cbn [trace]. now rewrite app_assoc.
    + exists false, (snd (b, a2)), (with_embedding_vector a' v), w',
        (l1 ++ l2).
      repeat split; auto.
      * rewrite Hst. unfold w1'. cbn [store]. rewrite Hs.
        now apply replace_row_last.
      * rewrite Ht. unfold w1'. cbn [trace]. now rewrite app_assoc.
  - unfold ret.
    eexists true, _, (mark a' (id orig)), _, _.
    split; [reflexivity|]. cbn [store next_id registry trace].
    repeat split; auto.
    + rewrite Hs. now apply replace_row_last.
    + now rewrite <- app_assoc.
Qed.

End OneArticle.

Section OneRawArticle.

Variable X : externals.
Variable vd : VectorDeduplicator.

(** The URL fast path: nothing at all happens. *)
Lemma scrape_article_known_url d w :
  url_known (d_url d) (store w) = true ->
  scrape_article X vd d w = (Ok false, w).
Proof.
  intro H. unfold scrape_article, try_except, atomic, bind, get_world.
  fold (url_known (d_url d) (store w)). now rewrite H.
Qed.

Lemma unique_violation_fresh a s :
  (forall x, In x s -> id x <> id a) ->
  unique_violation a s
  = existsb (fun r => text_eqb (url r) (url a)
                      || String.eqb (content_hash r) (content_hash a)) s.
Proof.
  intro H. unfold unique_violation. induction s as [|x s IH]; [reflexivity|].
  cbn [existsb]. rewrite IH by (intros y Hy; apply H; now right).
  assert (opt_eqb (id x) (id a) = false) as ->
      by (apply opt_eqb_neq, H; now left).
  reflexivity.
Qed.

Lemma existsb_or {A} (f g : A -> bool) (l : list A) :
  existsb (fun x => f x || g x) l = existsb f l || existsb g l.
Proof.
  induction l as [|x l IH]; [reflexivity|]. cbn. rewrite IH.
  destruct (f x), (g x), (existsb f l), (existsb g l); reflexivity.
Qed.

Lemma firstn_500_fits (t : text) :
  (500 <? List.length (firstn 500 t))%nat = false.
Proof. apply Nat.ltb_ge. apply firstn_le_length. Qed.

(** The three ways through [scrape_article]: the URL is known and nothing
    happens; the database turns the row down and the table stays as it is;
    or one row is added, built from the raw article. *)
Lemma scrape_article_spec d w :
  fresh_ids w ->
  exists counted w',
    scrape_article X vd d w = (Ok counted, w')
    /\ fresh_ids w'
    /\ registry w' = registry w
    /\ ((url_known (d_url d) (store w) = true
         /\ w' = w /\ counted = false)
        \/ (url_known (d_url d) (store w) = false
            /\ rejected X d (store w) = true
            /\ store w' = store w /\ next_id w' = next_id w
            /\ index w' = index w /\ counted = false)
        \/ (url_known (d_url d) (store w) = false
            /\ rejected X d (store w) = false
            /\ exists h row,
                fingerprint (firstn 500 (d_title d)) (d_content d) = Some h
                /\ store w' = store w ++ [row]
                /\ next_id w' = next_id w + 1
                /\ id row = Some (next_id w)
                /\ title row = firstn 500 (d_title d)
                /\ content row = d_content d
                /\ url row = d_url d
                /\ source row = d_source d
                /\ content_hash row = h)).
Proof.
  intro Hf.
  destruct (url_known (d_url d) (store w)) eqn:Hurl.
  { exists false, w. rewrite scrape_article_known_url by exact Hurl.
    repeat split; auto. }
  unfold scrape_article, try_except, atomic, bind, get_world, now.
  fold (url_known (d_url d) (store w)). rewrite Hurl.
  set (t := now_at X (List.length (trace w))).
  fold (candidate d t).
  rewrite save_insert_eq by reflexivity. cbv zeta.
  cbn [candidate title content].
  unfold rejected.
  destruct (fingerprint (firstn 500 (d_title d)) (d_content d))
    as [h|] eqn:Hfp.
  2:{ eexists false, _. split; [reflexivity|]. split; [exact Hf|].
      split; [reflexivity|]. right. left. repeat split; auto. }
  set (a' := with_id (with_content_hash (candidate d t) h)
                     (Some (next_id w))).
  assert (forall x, In x (store w) -> id x <> id a') as Hids
      by (intros x Hx; now apply fresh_ids_other).
  rewrite (unique_violation_fresh a' (store w) Hids).
  rewrite existsb_or. cbn [a' url content_hash with_id with_content_hash
                           candidate].
  fold (url_known (d_url d) (store w)). rewrite Hurl. cbn [orb].
  destruct (existsb (fun r => String.eqb (content_hash r) h) (store w))
    eqn:Hclash.
  { eexists false, _. split; [reflexivity|]. split; [exact Hf|].
    split; [reflexivity|]. right. left. repeat split; auto. }
  cbn [fk_violation duplicate_of a' with_id with_content_hash candidate].
  unfold too_long.
  cbn [title url source content_hash a' with_id with_content_hash candidate].
  rewrite firstn_500_fits, (fingerprint_length _ _ _ Hfp).
  change (64 <? 64)%nat with false. cbn [orb]. rewrite orb_false_r.
  destruct (db_enforces_max_length X
            && ((200 <? List.length (d_url d))%nat
                || (100 <? List.length (d_source d))%nat)) eqn:Hlen.
  { eexists false, _. split; [reflexivity|]. split; [exact Hf|].
    split; [reflexivity|]. right. left. repeat split; auto. }
  fold a'.
  set (w1 := mkWorld (store w ++ [a']) (next_id w + 1) (index w)
                     (registry w) (trace w ++ [EvStoreInsert (next_id w)])).
  assert (unique_violation a' (store w) = false) as Hu.
  { rewrite (unique_violation_fresh a' (store w) Hids), existsb_or.
    cbn [a' url content_hash with_id with_content_hash candidate].
    fold (url_known (d_url d) (store w)). now rewrite Hurl, Hclash. }
  assert (content_hash a' <> EmptyString) as Hne
      by (cbn; now apply (fingerprint_not_empty _ _ _ Hfp)).
  destruct (process_inserted X vd a' (next_id w) (store w) w1
              eq_refl eq_refl (fun x Hx => fresh_ids_other w x Hf Hx)
              Hu Hne)
    as (b & a2 & row2 & w2 & l & Heq & Hst & Hsame & Hn & Hr & Ht).
  rewrite Heq. unfold log, emit, ret. cbn [fst snd].
  eexists (negb b), _. split; [reflexivity|].
  cbn [store next_id index registry trace].
  destruct Hsame as (S1 & S2 & S3 & S4 & S5 & S6 & S7 & S8).
  split; [|split; [exact Hr|]].
  - intros r Hin. cbn [store next_id] in *. rewrite Hst in Hin. rewrite Hn.
    cbn [w1 next_id].
    apply in_app_or in Hin as [Hin|[<-|[]]].
    + destruct (Hf r Hin) as (j & Hj & Hlt). exists j. split; auto. lia.
    + exists (next_id w). rewrite S1. split; [reflexivity|lia].
  - right. right. split; [reflexivity|]. split.
    { reflexivity. }
    exists h, row2.
    rewrite Hn, S1, S2, S3, S4, S5, S8. repeat split; auto.
Qed.

Lemma url_known_app u s added :
  url_known u s = true -> url_known u (s ++ added) = true.
Proof. unfold url_known. intro H. now rewrite existsb_app, H. Qed.

Lemma rejected_app d s added :
  rejected X d s = true -> rejected X d (s ++ added) = true.
Proof.
  unfold rejected. destruct (fingerprint _ _); [|reflexivity].
  rewrite existsb_app. intro H.
  apply orb_true_iff in H as [H|H]; rewrite H; cbn;
    now rewrite ?orb_true_r.
Qed.

Lemma settled_app d s added :
  settled X d s -> settled X d (s ++ added).
Proof.
  intros [H|H]; [left; now apply url_known_app
                |right; now apply rejected_app].
Qed.

(** A whole feed: rows are only added, each built from a raw article of
    the feed, and afterwards every raw article is settled. *)
Lemma scrape_articles_spec feed n w :
  fresh_ids w ->
  exists k added w',
    scrape_articles X vd feed n w = (Ok (n + k)%nat, w')
    /\ fresh_ids w'
    /\ registry w' = registry w
    /\ store w' = store w ++ added
    /\ (forall d, In d feed -> settled X d (store w'))
    /\ (forall row, In row added ->
        exists d, In d feed
                  /\ title row = firstn 500 (d_title d)
                  /\ content row = d_content d
                  /\ url row = d_url d
                  /\ fingerprint (firstn 500 (d_title d)) (d_content d)
                     = Some (content_hash row)).
Proof.
  revert n w. induction feed as [|d feed IH]; intros n w Hf.
  - exists O, [], w. cbn. rewrite Nat.add_0_r, app_nil_r.
    repeat split; auto; intros ? [].
  - cbn [scrape_articles]. unfold bind.
    destruct (scrape_article_spec d w Hf)
      as (counted & w1 & Heq & Hf1 & Hr1 & Hcase).
    rewrite Heq. cbv beta iota.
    destruct (IH (if counted then S n else n) w1 Hf1)
      as (k & added & w' & Heq' & Hf' & Hr' & Hst' & Hset & Hrows).
    destruct Hcase as [(Hu & -> & ->)
                      |[(Hu & Hrej & Hs1 & Hn1 & Hi1 & ->)
                       |(Hu & Hnrej & h & row & Hfp & Hs1 & Hn1 & Hid & Ht
                         & Hc & Hur & Hso & Hh)]].
    + exists k, added, w'. repeat split; auto.
      * intros d' [<-|Hin]; [|now apply Hset].
        rewrite Hst'. apply settled_app. now left.
      * intros row Hin. destruct (Hrows row Hin) as (d' & Hd' & Hrest).
        exists d'. split; [now right | exact Hrest].
    + exists k, added, w'. repeat split; auto; try congruence.
      * intros d' [<-|Hin]; [|now apply Hset].
        rewrite Hst', Hs1. apply settled_app. now right.
      * intros row Hin. destruct (Hrows row Hin) as (d' & Hd' & Hrest).
        exists d'. split; [now right | exact Hrest].
    + exists (if counted then S k else k), (row :: added), w'.
      split; [|split; [exact Hf'|split; [congruence|split; [|split]]]].
      * rewrite Heq'. destruct counted; f_equal; f_equal; lia.
      * rewrite Hst', Hs1, <- app_assoc. reflexivity.
      * intros d' [<-|Hin]; [|now apply Hset].
        rewrite Hst', Hs1. apply settled_app. left.
        unfold url_known. rewrite existsb_app. cbn.
        rewrite Hur. unfold text_eqb.
        destruct (list_eq_dec Z.eq_dec (d_url d) (d_url d)); [|contradiction].
        now rewrite orb_true_r.
      * intros r [<-|Hin].
        -- exists d. rewrite Ht, Hc, Hur, Hh. repeat split; auto. now left.
        -- destruct (Hrows r Hin) as (d' & Hd' & Hrest).
           exists d'. split; [now right | exact Hrest].
Qed.

(** A feed whose raw articles are all settled adds nothing. *)
Lemma scrape_articles_settled feed n w :
  fresh_ids w ->
  (forall d, In d feed -> settled X d (store w)) ->
  exists w',
    scrape_articles X vd feed n w = (Ok n, w')
    /\ fresh_ids w'
    /\ store w' = store w /\ next_id w' = next_id w
    /\ index w' = index w /\ registry w' = registry w.
Proof.
  revert n w. induction feed as [|d feed IH]; intros n w Hf Hset.
  - exists w. repeat split; auto.
  - cbn [scrape_articles]. unfold bind.
    destruct (scrape_article_spec d w Hf)
      as (counted & w1 & Heq & Hf1 & Hr1 & Hcase).
    rewrite Heq.
    destruct Hcase as [(Hu & -> & ->)
                      |[(Hu & Hrej & Hs1 & Hn1 & Hi1 & ->)
                       |(Hu & Hnrej & _)]].
    + apply IH; [exact Hf|]. intros d' Hd'. apply Hset. now right.
    + destruct (IH n w1 Hf1) as (w' & Heq' & Hf' & Hs' & Hn' & Hi' & Hr').
      { intros d' Hd'. rewrite Hs1. apply Hset. now right. }
      exists w'. repeat split; auto; congruence.
    + exfalso. destruct (Hset d (or_introl eq_refl)) as [H|H]; congruence.
Qed.

End OneRawArticle.

(** ** The registry *)

Lemma same_data_refl w : same_data w w.
Proof. unfold same_data. tauto. Qed.

Lemma same_data_trans w1 w2 w3 :
  same_data w1 w2 -> same_data w2 w3 -> same_data w1 w3.
Proof. unfold same_data. intuition congruence. Qed.

Section Registry.

Variable X : externals.

Lemma register_members_ok members w :
  exists w', register_members members w = (Ok tt, w') /\ same_data w w'.
Proof.
  revert w. induction members as [|[name obj] rest IH]; intro w.
  - exists w. split; [reflexivity | apply same_data_refl].
  - cbn [register_members].
    destruct obj as [c|]; [|apply IH].
    destruct (cls_kind c); try apply IH.
    unfold bind, set_scraper, bind, get_world, put_registry, log, emit.
    cbv beta iota.
    match goal with
    | |- exists w', register_members rest ?w0 = _ /\ _ =>
        destruct (IH w0) as (w' & Heq & Hs)
    end.
    exists w'. split; [exact Heq|].
    eapply same_data_trans; [|exact Hs]. unfold same_data. cbn. tauto.
Qed.

Lemma scan_files_ok files w :
  exists w', scan_files X files w = (Ok tt, w') /\ same_data w w'.
Proof.
  revert w. induction files as [|filename rest IH]; intro w.
  - exists w. split; [reflexivity | apply same_data_refl].
  - cbn [scan_files]. unfold bind.
    destruct (is_parser_file filename).
    + unfold try_except.
      destruct (import_members X (strip_py filename)) as [members|].
      * destruct (register_members_ok members w) as (w1 & Heq & Hs).
        rewrite Heq.
        destruct (IH w1) as (w' & Heq' & Hs').
        exists w'. split; [exact Heq'|].
        eapply same_data_trans; eassumption.
      * unfold raise, log, emit.
        match goal with
        | |- exists w', scan_files X rest ?w0 = _ /\ _ =>
            destruct (IH w0) as (w' & Heq & Hs)
        end.
        exists w'. split; [exact Heq|].
        eapply same_data_trans; [|exact Hs]. unfold same_data. cbn. tauto.
    + unfold ret. apply IH.
Qed.

(** Discovery always completes, leaves the data alone, and does nothing
    the second time. *)
Lemma discover_ok w :
  exists w',
    _discover_scrapers X w = (Ok tt, w')
    /\ same_data w w'
    /\ _discovered (registry w') = true
    /\ (_discovered (registry w) = true -> w' = w).
Proof.
  unfold _discover_scrapers, bind, get_world.
  destruct (_discovered (registry w)) eqn:E.
  - exists w. repeat split; auto.
  - destruct (scan_files_ok (parsers_dir X) w) as (w1 & Heq & Hs).
    rewrite Heq. unfold put_registry, log, emit. cbv beta iota.
    eexists. split; [reflexivity|]. cbn. split; [|split; [reflexivity|]].
    + destruct Hs as (H1 & H2 & H3). unfold same_data. cbn. tauto.
    + discriminate.
Qed.

(** Lookup in a registry that was discovered before. *)
Lemma create_scraper_discovered scraper_type w :
  _discovered (registry w) = true ->
  create_scraper X scraper_type w =
  match dict_get (PyStr.lower scraper_type) (_scrapers (registry w)) with
  | None =>
      (Raise (ValueError (unknown_scraper_message scraper_type
                            (dict_keys (_scrapers (registry w))))), w)
  | Some scraper_class =>
      if cls_constructible scraper_class then (Ok scraper_class, w)
      else (Raise TypeError, w)
  end.
Proof.
  intro H. unfold create_scraper, bind.
  destruct (discover_ok w) as (w' & Heq & _ & _ & Hsame).
  rewrite Heq, (Hsame H). unfold get_world.
  destruct (dict_get _ _) as [c|]; [|reflexivity].
  now destruct (cls_constructible c).
Qed.

End Registry.

(** ** A source-run *)

Lemma fresh_ids_same_data w w' : same_data w w' -> fresh_ids w -> fresh_ids w'.
Proof.
  intros (Hs & Hn & _) Hf r Hin. rewrite Hs in Hin. rewrite Hn.
  now apply Hf.
Qed.

Section SourceRun.

Variable X : externals.
Variable vd : VectorDeduplicator.

(** [scrape_single_source], step by step: discovery, lookup, fetch, and
    the loop over the feed. It returns a count in every case. *)
Lemma scrape_single_source_eq scraper_name w :
  exists wd,
    _discover_scrapers X w = (Ok tt, wd)
    /\ same_data w wd
    /\ _discovered (registry wd) = true
    /\ (_discovered (registry w) = true -> wd = w)
    /\ scrape_single_source X vd scraper_name w =
       let failed :=
         (Ok O, after wd [EvLog ERROR (MsgErrorSingleSource scraper_name)]) in
       match dict_get (PyStr.lower scraper_name) (_scrapers (registry wd)) with
       | Some scraper =>
           if cls_constructible scraper then
             match scrape X scraper (List.length (trace wd)) with
             | Some articles_data =>
                 match scrape_articles X vd articles_data O wd with
                 | (Ok count, w') => (Ok count, w')
                 | (Raise _, w') =>
                     (Ok O, after w' [EvLog ERROR
                                        (MsgErrorSingleSource scraper_name)])
                 end
             | None => failed
             end
           else failed
       | None => failed
       end.
Proof.
  destruct (discover_ok X w) as (wd & Heq & Hs & Hd & Hsame).
  exists wd. repeat split; try assumption; try apply Hs.
  unfold scrape_single_source, try_except, bind, create_scraper, bind.
  rewrite Heq. unfold get_world, moment. cbv zeta.
  destruct (dict_get _ _) as [c|]; [|reflexivity].
  destruct (cls_constructible c); [|reflexivity].
  unfold ret.
  destruct (scrape X c (List.length (trace wd))) as [feed|]; [|reflexivity].
  destruct (scrape_articles X vd feed O wd) as [[count|e] w']; reflexivity.
Qed.


(** C6. Against an unchanged feed a second source-run adds nothing: it
    reports 0 new records and leaves table, key sequence and index as the
    first run left them. A raw article whose URL is already stored is
    skipped on the spot: the world, trace included, is the same afterwards,
    so neither a hash nor an embedding was computed for it. *)
Theorem second_run_adds_nothing scraper_name w res1 w1 :
  fresh_ids w ->
  (forall c m m', scrape X c m = scrape X c m') ->
  scrape_single_source X vd scraper_name w = (res1, w1) ->
  (exists w2,
      scrape_single_source X vd scraper_name w1 = (Ok O, w2)
      /\ store w2 = store w1
      /\ next_id w2 = next_id w1
      /\ index w2 = index w1)
  /\ (forall d w0,
         url_known (d_url d) (store w0) = true ->
         scrape_article X vd d w0 = (Ok false, w0)).
Proof.
  intros Hf Hfeed Hrun. split; [|intros d w0; apply scrape_article_known_url].
  destruct (scrape_single_source_eq scraper_name w)
    as (wd & _ & Hs & Hd & _ & Heq).
  rewrite Hrun in Heq. cbv zeta in Heq.
  assert (fresh_ids wd) as Hfd by (eapply fresh_ids_same_data; eassumption).
  (* what the second run does, given a world with the registry of [wd] *)
  assert (forall w1', registry w1' = registry wd ->
            exists wd2, wd2 = w1'
              /\ scrape_single_source X vd scraper_name w1' =
                 let failed :=
                   (Ok O, after wd2 [EvLog ERROR
                                       (MsgErrorSingleSource scraper_name)]) in
                 match dict_get (PyStr.lower scraper_name)
                                (_scrapers (registry wd)) with
                 | Some scraper =>
                     if cls_constructible scraper then
                       match scrape X scraper (List.length (trace wd)) with
                       | Some articles_data =>
                           match scrape_articles X vd articles_data O wd2 with
                           | (Ok count, w') => (Ok count, w')
                           | (Raise _, w') =>
                               (Ok O, after w' [EvLog ERROR
                                  (MsgErrorSingleSource scraper_name)])
                           end
                       | None => failed
                       end
                     else failed
                 | None => failed
                 end) as Hsecond.
  { intros w1' Hreg.
    destruct (scrape_single_source_eq scraper_name w1')
      as (wd2 & _ & _ & _ & Hsame & Heq2).
    assert (wd2 = w1') as -> by (apply Hsame; now rewrite Hreg).
    exists w1'. split; [reflexivity|]. rewrite Heq2, Hreg.
    cbv zeta. destruct (dict_get _ _) as [c|]; [|reflexivity].
    destruct (cls_constructible c); [|reflexivity].
    now rewrite (Hfeed c (List.length (trace w1')) (List.length (trace wd))). }
  destruct (dict_get (PyStr.lower scraper_name) (_scrapers (registry wd)))
    as [c|] eqn:Hget.
  2:{ injection Heq as -> ->.
      destruct (Hsecond (after wd [EvLog ERROR
                                     (MsgErrorSingleSource scraper_name)])
                        eq_refl) as (wd2 & -> & Heq2).
      rewrite Heq2. eexists. split; [reflexivity|]. cbn. tauto. }
  destruct (cls_constructible c) eqn:Hc.
  2:{ injection Heq as -> ->.
      destruct (Hsecond (after wd [EvLog ERROR
                                     (MsgErrorSingleSource scraper_name)])
                        eq_refl) as (wd2 & -> & Heq2).
      rewrite Heq2. eexists. split; [reflexivity|]. cbn. tauto. }
  destruct (scrape X c (List.length (trace wd))) as [feed|] eqn:Hsc.
  2:{ injection Heq as -> ->.
      destruct (Hsecond (after wd [EvLog ERROR
                                     (MsgErrorSingleSource scraper_name)])
                        eq_refl) as (wd2 & -> & Heq2).
      rewrite Heq2. eexists. split; [reflexivity|]. cbn. tauto. }
  destruct (scrape_articles_spec X vd feed O wd Hfd)
    as (k & added & w' & Heq' & Hf' & Hr' & Hst' & Hset & _).
  rewrite Heq' in Heq. injection Heq as -> ->.
  destruct (Hsecond w' Hr') as (wd2 & -> & Heq2).
  destruct (scrape_articles_settled X vd feed O w' Hf' Hset)
    as (w2 & Heq3 & _ & Hs2 & Hn2 & Hi2 & _).
  rewrite Heq2, Heq3. exists w2. repeat split; assumption.
Qed.

End SourceRun.

Lemma fresh_ids_empty n ix f t : fresh_ids (mkWorld [] n ix f t).
Proof. intros r []. Qed.

Example first_run_counts_two :
  fst (scrape_single_source newsroom default_vector_deduplicator "feed"
         registered_world) = Ok 2%nat.
Proof. vm_compute. reflexivity. Qed.

Lemma second_run_adds_nothing_witness :
  (exists w2,
      scrape_single_source newsroom default_vector_deduplicator "feed"
        (snd (scrape_single_source newsroom default_vector_deduplicator
                "feed" registered_world))
      = (Ok O, w2)
      /\ store w2
         = store (snd (scrape_single_source newsroom
                         default_vector_deduplicator "feed"
                         registered_world))
      /\ next_id w2
         = next_id (snd (scrape_single_source newsroom
                           default_vector_deduplicator "feed"
                           registered_world))
      /\ index w2
         = index (snd (scrape_single_source newsroom
                         default_vector_deduplicator "feed"
                         registered_world)))
  /\ (forall d w0,
         url_known (d_url d) (store w0) = true ->
         scrape_article newsroom default_vector_deduplicator d w0
         = (Ok false, w0)).
Proof.
  apply (second_run_adds_nothing newsroom default_vector_deduplicator
           "feed" registered_world
           (fst (scrape_single_source newsroom default_vector_deduplicator
                   "feed" registered_world))).
  - apply fresh_ids_empty.
  - reflexivity.
  - apply surjective_pairing.
Defined.

(** ** What a source-run stores *)

Section Stored.

Variable X : externals.
Variable vd : VectorDeduplicator.

(** Rows are only added by a source-run, and every added row is built from
    a raw article that the adapter returned. *)
Lemma scrape_single_source_spec scraper_name w :
  fresh_ids w ->
  exists count added w',
    scrape_single_source X vd scraper_name w = (Ok count, w')
    /\ fresh_ids w'
    /\ store w' = store w ++ added
    /\ (forall row, In row added ->
        exists c m feed d,
          scrape X c m = Some feed /\ In d feed
          /\ title row = firstn 500 (d_title d)
          /\ content row = d_content d
          /\ url row = d_url d
          /\ fingerprint (firstn 500 (d_title d)) (d_content d)
             = Some (content_hash row)).
Proof.
  intro Hf.
  destruct (scrape_single_source_eq X vd scraper_name w)
    as (wd & _ & Hs & _ & _ & Heq).
  assert (fresh_ids wd) as Hfd by (eapply fresh_ids_same_data; eassumption).
  assert (exists count added w',
             (Ok O, after wd [EvLog ERROR (MsgErrorSingleSource scraper_name)])
             = (Ok count, w')
             /\ fresh_ids w'
             /\ store w' = store w ++ added
             /\ (forall row, In row added ->
                 exists c m feed d,
                   scrape X c m = Some feed /\ In d feed
                   /\ title row = firstn 500 (d_title d)
                   /\ content row = d_content d
                   /\ url row = d_url d
                   /\ fingerprint (firstn 500 (d_title d)) (d_content d)
                      = Some (content_hash row))) as Hfailed.
  { exists O, [], (after wd [EvLog ERROR (MsgErrorSingleSource scraper_name)]).
    split; [reflexivity|]. split; [|split].
    - eapply fresh_ids_same_data; [|exact Hfd]. unfold same_data. cbn. tauto.
    - cbn. rewrite app_nil_r. apply Hs.
    - intros row []. }
  rewrite Heq. cbv zeta.
  destruct (dict_get _ _) as [c|]; [|exact Hfailed].
  destruct (cls_constructible c); [|exact Hfailed].
  destruct (scrape X c (List.length (trace wd))) as [feed|] eqn:Hsc;
    [|exact Hfailed].
  destruct (scrape_articles_spec X vd feed O wd Hfd)
    as (k & added & w' & Heq' & Hf' & _ & Hst' & _ & Hrows).
  rewrite Heq'. exists (0 + k)%nat, added, w'.
  split; [reflexivity|]. split; [exact Hf'|]. split.
  - rewrite Hst'. destruct Hs as (-> & _). reflexivity.
  - intros row Hin. destruct (Hrows row Hin) as (d & Hd & Hrest).
    exists c, (List.length (trace wd)), feed, d. auto.
Qed.

Lemma objects_get_replace_row_other i j r s :
  id r = Some i -> j <> i ->
  objects_get j (replace_row i r s) = objects_get j s.
Proof.
  intros Hr Hne. unfold objects_get, replace_row.
  induction s as [|x s IH]; [reflexivity|]. cbn.
  destruct (opt_eqb (id x) (Some i)) eqn:E.
  - apply opt_eqb_eq in E. rewrite Hr, E.
    assert (opt_eqb (Some i) (Some j) = false) as ->
        by (apply opt_eqb_neq; congruence).
    exact IH.
  - destruct (opt_eqb (id x) (Some j)); [reflexivity | exact IH].
Qed.

Lemma copy_fields_same fs a row :
  same_article row (fold_left (fun r f => copy_field f a r) fs row).
Proof.
  revert row. induction fs as [|f fs IH]; intro row; cbn [fold_left].
  - apply same_article_refl.
  - destruct (IH (copy_field f a row)) as (H1 & H2 & H3 & H4 & H5 & H6 & H7 & H8).
    unfold same_article. rewrite H1, H2, H3, H4, H5, H6, H7, H8.
    destruct f; cbn; tauto.
Qed.

(** A [save(update_fields=...)] leaves the hash, the title and the content
    of every row as they are. *)
Lemma save_fields_keeps_rows fs a w a' w' j r :
  save X (Some fs) a w = (Ok a', w') ->
  objects_get j (store w) = Some r ->
  exists r', objects_get j (store w') = Some r' /\ same_article r r'.
Proof.
  unfold save, bind. intros Hsave Hget.
  destruct (ensure_content_hash a w) as [[a1|e] w1] eqn:E; [|discriminate].
  apply ensure_content_hash_result in E as [-> _].
  unfold model_save, bind, get_world, put_store, emit, ret, raise in Hsave.
  destruct (id a1) as [i|]; [|discriminate].
  destruct (objects_get i (store w)) as [row|] eqn:Hrow; [|discriminate].
  destruct (existsb _ fs && fk_violation _ _); [discriminate|].
  injection Hsave as _ <-. cbn [store].
  pose proof (copy_fields_same fs a1 row) as Hsame.
  apply objects_get_Some in Hrow as Hrow'. destruct Hrow' as [_ Hri].
  destruct (Z.eq_dec j i) as [->|Hne].
  - rewrite Hget in Hrow. injection Hrow as ->.
    eexists. split; [|exact Hsame].
    eapply objects_get_replace_row; [exact Hget|].
    destruct Hsame as (-> & _). exact Hri.
  - exists r. split; [|apply same_article_refl].
    rewrite objects_get_replace_row_other; auto.
    destruct Hsame as (-> & _). exact Hri.
Qed.

End Stored.

Section Fingerprints.

Variable X : externals.
Variable vd : VectorDeduplicator.

Lemma hash_ok_bytes r :
  hash_ok r <->
  exists bytes, Utf8.encode (title r ++ content r) = Some bytes
                /\ content_hash r = Sha256.hexdigest bytes.
Proof.
  unfold hash_ok, fingerprint. split.
  - destruct (Utf8.encode (title r ++ content r)) as [bytes|];
      [|discriminate].
    intro H. injection H as H. now exists bytes.
  - intros (bytes & -> & ->). reflexivity.
Qed.

(** What [Model.save] hands back: the instance, with its key if it was
    inserted. *)
Lemma model_save_instance uf a w a' w' :
  model_save X uf a w = (Ok a', w') ->
  a' = a \/ a' = with_id a (Some (next_id w)).
Proof.
  unfold model_save, bind, get_world, check_row, put_store, put_next_id,
    emit, ret, raise.
  destruct uf as [fs|], (id a) as [i|]; cbv zeta.
  - destruct (objects_get i (store w)); [|discriminate].
    destruct (existsb _ fs && fk_violation _ _); [discriminate|].
    intro H. injection H as <- _. now left.
  - discriminate.
  - destruct (objects_get i (store w)).
    + destruct (unique_violation _ _); [discriminate|].
      destruct (fk_violation _ _); [discriminate|].
      destruct (db_enforces_max_length X && too_long _); [discriminate|].
      intro H. injection H as <- _. now left.
    + destruct (unique_violation _ _); [discriminate|].
      destruct (fk_violation _ _); [discriminate|].
      destruct (db_enforces_max_length X && too_long _); [discriminate|].
      intro H. injection H as <- _. now left.
  - destruct (unique_violation _ _); [discriminate|].
    destruct (fk_violation _ _); [discriminate|].
    destruct (db_enforces_max_length X && too_long _); [discriminate|].
    intro H. injection H as <- _. now right.
Qed.

(** The first save computes the fingerprint of title and content. *)
Lemma save_computes_hash uf a w a' w' :
  content_hash a = EmptyString ->
  save X uf a w = (Ok a', w') ->
  title a' = title a /\ content a' = content a /\ hash_ok a'.
Proof.
  intros Hh. unfold save, bind.
  destruct (ensure_content_hash a w) as [[a1|e] w1] eqn:E; [|discriminate].
  apply ensure_content_hash_result in E as [-> (Hfp & _ & Ha1)].
  specialize (Hfp Hh). intro Hsave.
  assert (title a' = title a1 /\ content a' = content a1
          /\ content_hash a' = content_hash a1) as (Ht & Hc & Hhh).
  { apply model_save_instance in Hsave as [->| ->]; cbn; auto. }
  assert (title a1 = title a /\ content a1 = content a) as (Ht1 & Hc1)
      by (rewrite Ha1; cbn; auto).
  unfold hash_ok. rewrite Ht, Hc, Hhh, Ht1, Hc1. auto.
Qed.

(** C5. Every record that the pipeline stores carries, as its content
    hash, the hexadecimal SHA-256 digest of the UTF-8 bytes of title +
    content. The hash is a function of title and content alone. It is
    computed by the first save, when the field is still empty; a digest is
    never empty, so no later save computes it again: the instance keeps its
    hash, and so does every row of the table. *)
Theorem content_hash_written_once scraper_name w res w' :
  fresh_ids w ->
  Forall hash_ok (store w) ->
  scrape_single_source X vd scraper_name w = (res, w') ->
  Forall hash_ok (store w')
  /\ (forall r, hash_ok r <->
                exists bytes,
                  Utf8.encode (title r ++ content r) = Some bytes
                  /\ content_hash r = Sha256.hexdigest bytes)
  /\ (forall r r', title r = title r' -> content r = content r' ->
                   hash_ok r -> hash_ok r' ->
                   content_hash r = content_hash r')
  /\ (forall uf a w0 a' w0',
         content_hash a = EmptyString ->
         save X uf a w0 = (Ok a', w0') ->
         title a' = title a /\ content a' = content a /\ hash_ok a')
  /\ (forall r, hash_ok r -> content_hash r <> EmptyString)
  /\ (forall uf a w0 a' w0',
         content_hash a <> EmptyString ->
         save X uf a w0 = (Ok a', w0') ->
         content_hash a' = content_hash a)
  /\ (forall fs a w0 a' w0' j r,
         save X (Some fs) a w0 = (Ok a', w0') ->
         objects_get j (store w0) = Some r ->
         exists r', objects_get j (store w0') = Some r'
                    /\ content_hash r' = content_hash r
                    /\ title r' = title r /\ content r' = content r).
Proof.
  intros Hf Hok Hrun. split; [|split; [|split; [|split; [|split; [|split]]]]].
  - destruct (scrape_single_source_spec X vd scraper_name w Hf)
      as (count & added & w1 & Heq & _ & Hst & Hrows).
    rewrite Hrun in Heq. injection Heq as -> ->.
    rewrite Hst. apply Forall_app. split; [exact Hok|].
    apply Forall_forall. intros row Hin.
    destruct (Hrows row Hin) as (c & m & feed & d & _ & _ & Ht & Hc & _ & Hfp).
    unfold hash_ok. now rewrite Ht, Hc.
  - apply hash_ok_bytes.
  - unfold hash_ok. intros r r' Ht Hc H H'. rewrite Ht, Hc in H. congruence.
  - apply save_computes_hash.
  - intros r H. eapply fingerprint_not_empty. exact H.
  - apply save_keeps_hash.
  - intros fs a w0 a' w0' j r Hsave Hget.
    destruct (save_fields_keeps_rows X fs a w0 a' w0' j r Hsave Hget)
      as (r' & Hget' & (_ & Ht & Hc & _ & _ & _ & _ & Hh)).
    exists r'. auto.
Qed.


End Fingerprints.

Lemma content_hash_written_once_witness :
  Forall hash_ok
    (store (snd (scrape_single_source newsroom default_vector_deduplicator
                   "feed" registered_world))).
Proof.
  destruct (content_hash_written_once newsroom default_vector_deduplicator
              "feed" registered_world
              (fst (scrape_single_source newsroom
                      default_vector_deduplicator "feed" registered_world))
              (snd (scrape_single_source newsroom
                      default_vector_deduplicator "feed" registered_world)))
    as (H & _).
  - apply fresh_ids_empty.
  - constructor.
  - apply surjective_pairing.
  - exact H.
Defined.


(** ** A full run over the registered sources *)

Section FullRun.

Variable X : externals.
Variable vd : VectorDeduplicator.


Lemma dict_set_keys {V} (k : string) (v : V) (d : list (string * V)) name :
  In name (dict_keys (dict_set k v d)) <-> name = k \/ In name (dict_keys d).
Proof.
  induction d as [|[k' v'] d IH]; cbn.
  - intuition.
  - destruct (String.eqb k' k) eqn:E; cbn.
    + apply String.eqb_eq in E. subst. intuition.
    + rewrite IH. intuition.
Qed.







End FullRun.

Example three_sources_counts :
  fst (scrape_all_sources three_feeds default_vector_deduplicator
         three_sources_world)
  = Ok [("alpha"%string, 1%nat); ("beta"%string, 0%nat);
        ("gamma"%string, 1%nat)].
Proof. vm_compute. reflexivity. Qed.


(** ** Cleanup *)

Section Cleanup.

Variable X : externals.










End Cleanup.

Example cleanup_with_index_down :
  cleanup_old_articles index_down default_days archive_world
  = (Ok 1%nat,
     mkWorld [recent] 3 [_create_document story; _create_document recent]
             (mkFactory [] false)
             [EvIndexDelete (Some 1);
              EvLog ERROR MsgRemoveFromIndexError;
              EvStoreDelete [Some 1];
              EvLog INFO (MsgCleanedUp 1)]).
Proof. vm_compute. reflexivity. Qed.

(** The delete cascades along [duplicate_of]: a recent duplicate of an
    aged row goes with it. Duplicates are never put into the index, so
    there is no vector to remove for them, and none is asked for. *)
Example cleanup_cascades_to_duplicates :
  cleanup_old_articles index_down default_days echo_world
  = (Ok 1%nat,
     mkWorld [recent] 4 [_create_document story; _create_document recent]
             (mkFactory [] false)
             [EvIndexDelete (Some 1);
              EvLog ERROR MsgRemoveFromIndexError;
              EvStoreDelete [Some 1; Some 3];
              EvLog INFO (MsgCleanedUp 1)]).
Proof. vm_compute. reflexivity. Qed.


(** ** The registry: names *)

Example scraper_name_examples :
  scraper_name_of "OpenAIBlogScraper" = "openaiblog"%string
  /\ scraper_name_of "MockScraper1" = "mock1"%string
  /\ scraper_name_of "ScraperHubScraper" = "hub"%string.
Proof. repeat split. Qed.

Section Lookup.

Variable X : externals.

(** Lookup does not see the case of its argument: two spellings of a name
    resolve to the same class, or both fail. *)
Lemma create_scraper_case_insensitive s s' w :
  PyStr.lower s = PyStr.lower s' ->
  match fst (create_scraper X s w), fst (create_scraper X s' w) with
  | Ok c, Ok c' => c = c'
  | Raise _, Raise _ => True
  | _, _ => False
  end.
Proof.
  intro H. unfold create_scraper, bind.
  destruct (discover_ok X w) as (wd & Heq & _). rewrite Heq.
  unfold get_world. rewrite H.
  destruct (dict_get _ _) as [c|]; cbn; [|exact I].
  destruct (cls_constructible c); cbn; auto.
Qed.

End Lookup.

(** C7, on the repository's own adapter. Discovery registers
    [OpenAIBlogScraper] under ["openaiblog"]: the class name is lowercased
    and every occurrence of ["scraper"] is removed, nothing puts an
    underscore in. So [create_scraper("openai_blog")] and
    [create_scraper("OpenAI_Blog")] both raise [ValueError] (the message
    lists the known names) instead of resolving to the adapter, which
    answers to ["openaiblog"] only. *)
Theorem openai_blog_is_not_registered :
  fst (get_available_scrapers parsers_package start_world)
  = Ok ["hackernews"; "openaiblog"; "rssfeed"]%string
  /\ fst (create_scraper parsers_package "openai_blog" start_world)
     = Raise (ValueError
                "Unknown scraper type: openai_blog. Available: hackernews, openaiblog, rssfeed")
  /\ fst (create_scraper parsers_package "OpenAI_Blog" start_world)
     = Raise (ValueError
                "Unknown scraper type: OpenAI_Blog. Available: hackernews, openaiblog, rssfeed")
  /\ fst (create_scraper parsers_package "openaiblog" start_world)
     = Ok openai_blog_scraper_class
  /\ fst (create_scraper parsers_package "OpenAIBlog" start_world)
     = Ok openai_blog_scraper_class.
Proof. vm_compute. repeat split. Qed.

(** ** Timestamps *)

Section ParseDate.

Variable X : externals.


End ParseDate.


Example parse_date_examples :
  fst (_parse_date calendar "2023-12-01T10:30:00Z" start_world) = Ok 1000
  /\ fst (_parse_date calendar "2023-12-01T10:30:00" start_world) = Ok 1000
  /\ fst (_parse_date calendar "Tue, 26 Aug 2024 15:21:19 +0000" start_world)
     = Ok 2000
  /\ _parse_date calendar "not-a-date" start_world
     = (Ok 1, after start_world
                [EvLog WARNING (MsgCouldNotParseDate "not-a-date")]).
Proof. vm_compute. repeat split. Qed.

(** An exception of another class is not caught. *)
Example parse_date_lets_overflow_through :
  fst (_parse_date calendar
         "Mon, 01 Jan 2024 00:00:00 +99999999999999999999" start_world)
  = Raise OverflowError.
Proof. vm_compute. reflexivity. Qed.


(* ================================================================== *)
(** ** Text cleaning *)

Lemma split_from_words (t cur : text) :
  forallb solid cur = true ->
  Forall word (split_from cur t).
Proof.
  revert cur. induction t as [|c t IH]; intros cur Hcur; cbn [split_from].
  - destruct cur as [|d cur]; constructor; [|constructor].
    split.
    + intro H. apply (f_equal (@List.length Z)) in H.
      rewrite length_rev in H. discriminate.
    + rewrite forallb_forall in *. intros x Hx. apply Hcur.
      now apply in_rev.
  - destruct (is_space c) eqn:Hc.
    + destruct cur as [|d cur]; [now apply IH|].
      constructor; [|now apply IH].
      split.
      * intro H. apply (f_equal (@List.length Z)) in H.
        rewrite length_rev in H. discriminate.
      * rewrite forallb_forall in *. intros x Hx. apply Hcur.
        now apply in_rev.
    + apply IH. cbn [forallb]. unfold solid at 1. now rewrite Hc, Hcur.
Qed.

Lemma split_from_word (w t cur : text) :
  forallb solid w = true ->
  split_from cur (w ++ t) = split_from (rev w ++ cur) t.
Proof.
  revert cur. induction w as [|c w IH]; intros cur Hw; [reflexivity|].
  cbn [forallb] in Hw. apply andb_true_iff in Hw as [Hc Hw].
  unfold solid in Hc. apply negb_true_iff in Hc.
  cbn [app split_from rev]. rewrite Hc, IH by assumption.
  now rewrite <- app_assoc.
Qed.

Lemma split_join_space (ws : list text) :
  Forall word ws -> split (join_space ws) = ws.
Proof.
  unfold split. induction 1 as [|w ws [Hne Hw] Hws IH]; [reflexivity|].
  cbn [join_space]. destruct ws as [|w' ws].
  - rewrite <- (app_nil_r w) at 1. rewrite split_from_word by assumption.
    rewrite app_nil_r. cbn [split_from].
    destruct (rev w) eqn:Hr.
    + apply (f_equal (@rev Z)) in Hr. rewrite rev_involutive in Hr.
      now destruct Hne.
    + now rewrite <- Hr, rev_involutive.
  - rewrite split_from_word by assumption. rewrite app_nil_r.
    change (is_space 32) with true in *.
    cbn [split_from]. change (is_space 32) with true. cbv iota.
    destruct (rev w) eqn:Hr.
    + apply (f_equal (@rev Z)) in Hr. rewrite rev_involutive in Hr.
      now destruct Hne.
    + rewrite <- Hr, rev_involutive. now rewrite IH.
Qed.

Lemma filter_join_space (w : text) (ws : list text) :
  filter solid (join_space (w :: ws))
  = filter solid w ++ filter solid (join_space ws).
Proof.
  cbn [join_space]. destruct ws as [|w' ws].
  - cbn [join_space filter]. now rewrite app_nil_r.
  - rewrite filter_app. reflexivity.
Qed.

Lemma filter_split_from (t cur : text) :
  filter solid (join_space (split_from cur t))
  = filter solid (rev cur) ++ filter solid t.
Proof.
  revert cur. induction t as [|c t IH]; intro cur; cbn [split_from].
  - destruct cur; [reflexivity|].
    cbn [join_space filter]. now rewrite app_nil_r.
  - destruct (is_space c) eqn:Hc.
    + assert (Hs : solid c = false) by (unfold solid; now rewrite Hc).
      cbn [filter]. rewrite Hs.
      destruct cur as [|d cur]; [apply IH|].
      rewrite filter_join_space, IH. reflexivity.
    + assert (Hs : solid c = true) by (unfold solid; now rewrite Hc).
      rewrite IH. cbn [rev filter]. rewrite filter_app.
      cbn [filter]. rewrite Hs.
      now rewrite <- app_assoc.
Qed.

Lemma join_space_nil (ws : list text) :
  Forall word ws -> join_space ws = [] -> ws = [].
Proof.
  destruct 1 as [|w ws [Hne _] _]; [reflexivity|].
  cbn [join_space]. destruct ws.
  - intro. now destruct Hne.
  - intro H. apply app_eq_nil in H as [_ H]. discriminate.
Qed.

Lemma solid_not_space (c : Z) : solid c = true <-> is_space c = false.
Proof. unfold solid. now rewrite negb_true_iff. Qed.

Lemma join_space_only_spaces (ws : list text) (c : Z) :
  Forall word ws -> In c (join_space ws) -> is_space c = true -> c = 32.
Proof.
  induction 1 as [|w ws [_ Hw] Hws IH]; [intros []|].
  rewrite forallb_forall in Hw. cbn [join_space]. intros Hin Hc.
  assert (Hnot : ~ In c w).
  { intro H. apply Hw, solid_not_space in H. congruence. }
  destruct ws as [|w' ws]; [contradiction|].
  apply in_app_or in Hin as [Hin|[Hin|Hin]]; auto. contradiction.
Qed.

Lemma join_space_head (ws : list text) (c : Z) (l : text) :
  Forall word ws -> join_space ws = c :: l -> is_space c = false.
Proof.
  destruct 1 as [|w ws [Hne Hw] Hws]; [discriminate|].
  cbn [join_space]. destruct w as [|d w]; [now destruct Hne|].
  cbn [forallb] in Hw. apply andb_true_iff in Hw as [Hd _].
  apply solid_not_space in Hd.
  destruct ws; cbn [app]; intro H; injection H as <- _; exact Hd.
Qed.

Lemma join_space_last (ws : list text) (c : Z) (l : text) :
  Forall word ws -> join_space ws = l ++ [c] -> is_space c = false.
Proof.
  intro H. revert l. induction H as [|w ws [Hne Hw] Hws IH]; intro l.
  - destruct l; discriminate.
  - cbn [join_space]. destruct ws as [|w' ws].
    + intros ->. rewrite forallb_app in Hw.
      apply andb_true_iff in Hw as [_ Hw]. cbn [forallb] in Hw.
      rewrite andb_true_r in Hw. now apply solid_not_space.
    + intro Heq.
      destruct (exists_last (l := join_space (w' :: ws))) as (l' & c' & Hl).
      { intro Hnil. apply join_space_nil in Hnil; [discriminate|assumption]. }
      rewrite Hl in Heq.
      change (w ++ 32 :: l' ++ [c']) with (w ++ (32 :: l') ++ [c']) in Heq.
      rewrite app_assoc in Heq. apply app_inj_tail in Heq as [_ <-].
      now apply (IH l').
Qed.

Lemma spaced_after_word (w r : text) :
  forallb solid w = true ->
  (forall l1 l2 a b, r = l1 ++ a :: b :: l2 ->
                     is_space a = true -> is_space b = false) ->
  (forall c l, r = c :: l -> is_space c = false) ->
  forall l1 l2 a b, w ++ 32 :: r = l1 ++ a :: b :: l2 ->
                    is_space a = true -> is_space b = false.
Proof.
  intros Hw Hr Hhead. induction w as [|c w IH]; intros l1 l2 a b Heq Ha.
  - destruct l1 as [|x l1]; cbn [app] in Heq.
    + injection Heq as _ Heq. now apply (Hhead b l2).
    + injection Heq as _ Heq. now apply (Hr l1 l2 a b).
  - cbn [forallb] in Hw. apply andb_true_iff in Hw as [Hc Hw].
    apply solid_not_space in Hc.
    destruct l1 as [|x l1]; cbn [app] in Heq.
    + injection Heq as -> _. congruence.
    + injection Heq as _ Heq. now apply (IH Hw l1 l2 a b).
Qed.

Lemma join_space_adjacent (ws : list text) :
  Forall word ws ->
  forall l1 l2 a b, join_space ws = l1 ++ a :: b :: l2 ->
                    is_space a = true -> is_space b = false.
Proof.
  induction 1 as [|w ws [Hne Hw] Hws IH]; intros l1 l2 a b.
  - destruct l1; discriminate.
  - cbn [join_space]. destruct ws as [|w' ws].
    + intros -> Ha. rewrite forallb_app in Hw.
      apply andb_true_iff in Hw as [_ Hw]. cbn [forallb] in Hw.
      apply andb_true_iff in Hw as [Hw _].
      apply solid_not_space in Hw. congruence.
    + apply spaced_after_word; auto.
      intros c l. now apply join_space_head.
Qed.

Lemma clean_text_words (t : text) :
  _clean_text (Some t) = join_space (split t).
Proof. destruct t; reflexivity. Qed.

(** X1: cleaning leaves single spaces between words and nothing else:
    the only white space in [_clean_text t] is the space character, a
    space is followed by a character that is not white space, and the
    result neither starts nor ends with white space. *)
Theorem clean_text_single_spaced (t : option text) :
  (forall c, In c (_clean_text t) -> is_space c = true -> c = 32)
  /\ (forall l1 l2 a b, _clean_text t = l1 ++ a :: b :: l2 ->
                        is_space a = true -> is_space b = false)
  /\ (forall c l, _clean_text t = c :: l -> is_space c = false)
  /\ (forall l c, _clean_text t = l ++ [c] -> is_space c = false).
Proof.
  destruct t as [t|].
  - rewrite clean_text_words.
    assert (H : Forall word (split t)) by now apply split_from_words.
    repeat split.
    + intro c. now apply join_space_only_spaces.
    + now apply join_space_adjacent.
    + intros c l. now apply join_space_head.
    + intros l c. now apply join_space_last.
  - cbn [_clean_text]. repeat split.
    + intros c [].
    + intros [|? ?]; discriminate.
    + discriminate.
    + intros [|? ?]; discriminate.
Qed.

(** X2: cleaning a cleaned text changes nothing. *)
Theorem clean_text_idempotent (t : option text) :
  _clean_text (Some (_clean_text t)) = _clean_text t.
Proof.
  destruct t as [t|]; [|reflexivity].
  rewrite !clean_text_words.
  now rewrite split_join_space by now apply split_from_words.
Qed.

(** X3: cleaning removes and inserts white space only: the characters
    that are not white space come out as they went in, in order. *)
Theorem clean_text_keeps_characters (t : text) :
  filter solid (_clean_text (Some t)) = filter solid t.
Proof.
  rewrite clean_text_words. unfold split. now rewrite filter_split_from.
Qed.

(** X4: the cleaned text is empty exactly when the input holds nothing
    but white space. *)
Theorem clean_text_empty_iff_blank (t : text) :
  _clean_text (Some t) = [] <-> forallb is_space t = true.
Proof.
  split.
  - intro H. pose proof (filter_split_from t []) as Hk.
    rewrite clean_text_words in H. unfold split in H.
    rewrite H in Hk. cbn [filter rev app join_space] in Hk. symmetry in Hk.
    rewrite forallb_forall. intros c Hc.
    destruct (is_space c) eqn:Hs; [reflexivity|].
    assert (Hin : In c (filter solid t)).
    { apply filter_In. split; [assumption|now apply solid_not_space]. }
    rewrite Hk in Hin. destruct Hin.
  - intro H. rewrite clean_text_words. unfold split.
    induction t as [|c t IH]; [reflexivity|].
    cbn [forallb] in H. apply andb_true_iff in H as [Hc Ht].
    cbn [split_from]. rewrite Hc. now apply IH.
Qed.
(* ================================================================== *)
(** ** Rate limiting *)

Lemma is_allowed_settings (rl : RateLimiter) (now : Z) :
  max_requests (snd (is_allowed rl now)) = max_requests rl
  /\ time_window (snd (is_allowed rl now)) = time_window rl.
Proof.
  unfold is_allowed.
  destruct (_ <? max_requests rl); split; reflexivity.
Qed.

Lemma is_allowed_requests (rl : RateLimiter) (now : Z) :
  requests (snd (is_allowed rl now))
  = within (time_window rl) now (requests rl)
    ++ (if fst (is_allowed rl now) then [now] else []).
Proof.
  unfold is_allowed, within.
  destruct (_ <? max_requests rl); cbn [fst snd requests]; [reflexivity|].
  now rewrite app_nil_r.
Qed.

Lemma is_allowed_bound (rl : RateLimiter) (now : Z) :
  Z.of_nat (List.length (requests rl)) <= Z.max 0 (max_requests rl) ->
  Z.of_nat (List.length (requests (snd (is_allowed rl now))))
  <= Z.max 0 (max_requests rl).
Proof.
  intro H. unfold is_allowed.
  destruct (_ <? max_requests rl) eqn:Hlt; cbn [snd requests].
  - apply Z.ltb_lt in Hlt. rewrite length_app. cbn [List.length]. lia.
  - pose proof (filter_length_le
                  (fun req_time => now - req_time <? time_window rl)
                  (requests rl)). lia.
Qed.

Lemma ask_all_bound (times : list Z) (rl : RateLimiter) :
  Z.of_nat (List.length (requests rl)) <= Z.max 0 (max_requests rl) ->
  Z.of_nat (List.length (requests (snd (ask_all rl times))))
  <= Z.max 0 (max_requests rl)
  /\ max_requests (snd (ask_all rl times)) = max_requests rl
  /\ time_window (snd (ask_all rl times)) = time_window rl.
Proof.
  revert rl. induction times as [|now later IH]; intros rl H.
  - cbn [ask_all snd]. auto.
  - cbn [ask_all].
    pose proof (is_allowed_bound rl now H) as Hb.
    destruct (is_allowed_settings rl now) as [Hm Hw].
    destruct (is_allowed rl now) as [answer rl1]. cbn [snd] in *.
    rewrite <- Hm in Hb. destruct (IH rl1 Hb) as (H1 & H2 & H3).
    destruct (ask_all rl1 later) as [answers rl2]. cbn [snd] in *.
    repeat split; congruence.
Qed.

(** X5: a limiter never holds more recorded requests than its maximum
    (none, when the maximum is negative), whatever the clock readings of
    the calls are. *)
Theorem rate_limiter_never_over (max window : Z) (times : list Z) :
  Z.of_nat
    (List.length
       (requests (snd (ask_all (new_rate_limiter max window) times))))
  <= Z.max 0 max.
Proof.
  apply (ask_all_bound times (new_rate_limiter max window)).
  cbn. lia.
Qed.

Lemma within_within (window now later : Z) (ts : list Z) :
  now <= later ->
  within window later (within window now ts) = within window later ts.
Proof.
  intro H. unfold within. induction ts as [|g ts IH]; [reflexivity|].
  cbn [filter]. destruct (now - g <? window) eqn:Hn; cbn [filter].
  - now rewrite IH.
  - rewrite IH. apply Z.ltb_ge in Hn.
    destruct (later - g <? window) eqn:Hl; [|reflexivity].
    apply Z.ltb_lt in Hl. lia.
Qed.

Lemma within_app (window now : Z) (l1 l2 : list Z) :
  within window now (l1 ++ l2)
  = within window now l1 ++ within window now l2.
Proof. apply filter_app. Qed.

Lemma granted_cons (now : Z) (later : list Z) (answer : bool)
      (answers : list bool) :
  granted (now :: later) (answer :: answers)
  = (if answer then [now] else []) ++ granted later answers.
Proof. unfold granted. cbn. now destruct answer. Qed.

Lemma last_cons (l : list Z) :
  forall a d, List.last (a :: l) d = List.last l a.
Proof.
  induction l as [|b l IH]; intros a d; [reflexivity|].
  change (List.last (a :: b :: l) d) with (List.last (b :: l) d).
  now rewrite !IH.
Qed.

Lemma ask_all_window (times : list Z) :
  forall (rl : RateLimiter) (history : list Z) (last : Z),
    Sorted Z.le (last :: times) ->
    within (time_window rl) last (requests rl)
    = within (time_window rl) last history ->
    within (time_window rl) (List.last times last)
           (requests (snd (ask_all rl times)))
    = within (time_window rl) (List.last times last)
             (history ++ granted times (fst (ask_all rl times))).
Proof.
  induction times as [|now later IH]; intros rl history last Hs Hinv.
  - cbn [ask_all fst snd List.last]. unfold granted. cbn.
    now rewrite app_nil_r.
  - apply Sorted_inv in Hs as [Hs Hrel]. apply HdRel_inv in Hrel.
    cbn [ask_all].
    pose proof (is_allowed_requests rl now) as Hreq.
    destruct (is_allowed_settings rl now) as [_ Hw].
    destruct (is_allowed rl now) as [answer rl1]. cbn [fst snd] in *.
    specialize (IH rl1 (history ++ if answer then [now] else []) now Hs).
    rewrite Hw in IH.
    destruct (ask_all rl1 later) as [answers rl2]. cbn [fst snd] in *.
    rewrite granted_cons, app_assoc.
    rewrite last_cons.
    apply IH. rewrite Hreq, !within_app. f_equal.
    rewrite within_within by lia.
    rewrite <- (within_within _ last now history) by assumption.
    now rewrite <- Hinv, within_within.
Qed.

(** X6: with a clock that does not go back, the limiter keeps its
    promise: of the calls allowed so far, at most [max_requests] lie
    within the time window that ends at the latest call. *)
Theorem rate_limiter_window
  (max window : Z) (earlier : list Z) (now : Z) :
  Sorted Z.le (earlier ++ [now]) ->
  Z.of_nat
    (List.length
       (within window now
          (granted (earlier ++ [now])
             (fst (ask_all (new_rate_limiter max window)
                           (earlier ++ [now]))))))
  <= Z.max 0 max.
Proof.
  intro Hs.
  set (times := earlier ++ [now]) in *.
  set (first := hd now times).
  assert (Hs' : Sorted Z.le (first :: times)).
  { subst first. destruct times as [|t0 times'] eqn:E; cbn [hd].
    - repeat constructor.
    - constructor; [assumption|]. constructor. lia. }
  pose proof (ask_all_window times (new_rate_limiter max window) []
                first Hs' eq_refl) as H.
  cbn [new_rate_limiter time_window app] in H.
  replace (List.last times first) with now in H
    by (subst times; now rewrite last_last).
  rewrite <- H.
  pose proof (rate_limiter_bound_aux := ask_all_bound times
                (new_rate_limiter max window)).
  cbn [new_rate_limiter requests max_requests List.length] in *.
  destruct rate_limiter_bound_aux as [Hb _]; [lia|].
  pose proof (filter_length_le
                (fun req_time => now - req_time <? window)
                (requests (snd (ask_all (new_rate_limiter max window)
                                        times)))) as Hf.
  unfold within. lia.
Qed.

Lemma rate_limiter_window_witness :
  Sorted Z.le ([0; 10; 20] ++ [70])
  /\ Z.of_nat
       (List.length
          (within 60 70
             (granted ([0; 10; 20] ++ [70])
                (fst (ask_all (new_rate_limiter 2 60)
                              ([0; 10; 20] ++ [70]))))))
     <= Z.max 0 2.
Proof.
  split.
  - repeat constructor; lia.
  - apply (rate_limiter_window 2 60 [0; 10; 20] 70).
    repeat constructor; lia.
Defined.

Lemma oldest_In (rest : list Z) :
  forall first, In (oldest first rest) (first :: rest).
Proof.
  unfold oldest. induction rest as [|r rest IH]; intro first.
  - now left.
  - cbn [fold_left]. destruct (IH (Z.min first r)) as [H|H].
    + rewrite <- H. destruct (Z.min_spec first r) as [[_ ->]|[_ ->]].
      * now left.
      * right. now left.
    + right. now right.
Qed.

Lemma filter_drops (f : Z -> bool) (l : list Z) (x : Z) :
  In x l -> f x = false ->
  (List.length (filter f l) < List.length l)%nat.
Proof.
  induction l as [|y l IH]; [intros []|].
  intros [->|Hin] Hx; cbn [filter List.length].
  - rewrite Hx. pose proof (filter_length_le f l). lia.
  - specialize (IH Hin Hx). destruct (f y); cbn [List.length]; lia.
Qed.

(** X7: when a limiter that has room for at least one request refuses
    a call, the waiting time read at that moment is positive, and a call
    made once the waiting time, read at any moment, has passed is
    allowed. *)
Theorem refused_then_allowed_after_wait
  (rl rl' : RateLimiter) (now : Z) :
  0 < max_requests rl ->
  Z.of_nat (List.length (requests rl)) <= max_requests rl ->
  is_allowed rl now = (false, rl') ->
  0 < wait_time rl' now
  /\ forall asked later, asked + wait_time rl' asked <= later ->
                         fst (is_allowed rl' later) = true.
Proof.
  intros Hpos Hlen. unfold is_allowed.
  set (kept := filter (fun req_time => now - req_time <? time_window rl)
                      (requests rl)).
  destruct (_ <? max_requests rl) eqn:Hlt; [discriminate|].
  intro H. injection H as <-. apply Z.ltb_ge in Hlt.
  assert (Hk : Z.of_nat (List.length kept) = max_requests rl).
  { pose proof (filter_length_le
                  (fun req_time => now - req_time <? time_window rl)
                  (requests rl)). fold kept in H. lia. }
  unfold wait_time. cbn [requests time_window max_requests].
  destruct kept as [|first rest] eqn:Ekept; [cbn in Hk; lia|].
  pose proof (oldest_In rest first) as Hin.
  assert (Hold : now - oldest first rest < time_window rl).
  { rewrite <- Ekept in Hin. apply filter_In in Hin as [_ Hin].
    now apply Z.ltb_lt. }
  split; [lia|].
  intros asked later Hlater.
  pose proof (filter_drops
                (fun req_time => later - req_time <? time_window rl)
                (first :: rest) (oldest first rest) Hin) as Hdrop.
  cbv beta in Hdrop.
  assert (Hgone : (later - oldest first rest <? time_window rl) = false)
    by (apply Z.ltb_ge; lia).
  specialize (Hdrop Hgone).
  assert (Hroom : (Z.of_nat
                     (List.length
                        (filter (fun req_time =>
                                   later - req_time <? time_window rl)
                                (first :: rest)))
                   <? max_requests rl) = true) by (apply Z.ltb_lt; lia).
  now rewrite Hroom.
Qed.

Lemma refused_then_allowed_after_wait_witness :
  is_allowed (mkRateLimiter 2 60 [0; 10]) 20
  = (false, mkRateLimiter 2 60 [0; 10])
  /\ 0 < wait_time (mkRateLimiter 2 60 [0; 10]) 20
  /\ forall asked later,
       asked + wait_time (mkRateLimiter 2 60 [0; 10]) asked <= later ->
       fst (is_allowed (mkRateLimiter 2 60 [0; 10]) later) = true.
Proof.
  split; [reflexivity|].
  apply (refused_then_allowed_after_wait (mkRateLimiter 2 60 [0; 10])
           (mkRateLimiter 2 60 [0; 10]) 20).
  - cbn. lia.
  - cbn. lia.
  - reflexivity.
Defined.

(** X8: a new limiter allows its first [max_requests] calls, whatever
    their clock readings are. *)
Theorem first_calls_are_allowed (max window : Z) (times : list Z) :
  Z.of_nat (List.length times) <= max ->
  Forall (fun answer => answer = true)
         (fst (ask_all (new_rate_limiter max window) times)).
Proof.
  assert (H : forall times rl,
             Z.of_nat (List.length (requests rl) + List.length times)
             <= max_requests rl ->
             Forall (fun answer => answer = true) (fst (ask_all rl times))).
  { clear times. induction times as [|now later IH]; intros rl Hlen.
    - constructor.
    - cbn [ask_all List.length] in *.
      pose proof (is_allowed_requests rl now) as Hreq.
      destruct (is_allowed_settings rl now) as [Hm _].
      assert (Hans : fst (is_allowed rl now) = true).
      { unfold is_allowed.
        pose proof (filter_length_le
                      (fun req_time => now - req_time <? time_window rl)
                      (requests rl)) as Hf.
        destruct (_ <? max_requests rl) eqn:Hlt; [reflexivity|].
        apply Z.ltb_ge in Hlt. lia. }
      destruct (is_allowed rl now) as [answer rl1]. cbn [fst snd] in *.
      subst answer. specialize (IH rl1).
      destruct (ask_all rl1 later) as [answers rl2]. cbn [fst] in *.
      constructor; [reflexivity|]. apply IH.
      rewrite Hreq, length_app, Hm. unfold within.
      pose proof (filter_length_le
                    (fun req_time => now - req_time <? time_window rl)
                    (requests rl)) as Hf.
      cbn [List.length]. lia. }
  intro Hlen. apply H. cbn. lia.
Qed.

Lemma first_calls_are_allowed_witness :
  Z.of_nat (List.length [5; 1; 3]) <= 3
  /\ Forall (fun answer => answer = true)
            (fst (ask_all (new_rate_limiter 3 60) [5; 1; 3])).
Proof.
  split; [cbn; lia|].
  apply (first_calls_are_allowed 3 60 [5; 1; 3]). cbn. lia.
Defined.

(* ================================================================== *)
(** ** The registry of the factory *)

Lemma dict_get_set_same {V} (k : string) (v : V) (d : list (string * V)) :
  dict_get k (dict_set k v d) = Some v.
Proof.
  induction d as [|[k' v'] d IH]; cbn [dict_set dict_get].
  - now rewrite String.eqb_refl.
  - destruct (String.eqb k' k) eqn:E; cbn [dict_get].
    + now rewrite String.eqb_refl.
    + now rewrite E.
Qed.


Lemma lower_char_idempotent (c : ascii) :
  PyStr.lower_char (PyStr.lower_char c) = PyStr.lower_char c.
Proof.
  destruct c as [[] [] [] [] [] [] [] []]; vm_compute; reflexivity.
Qed.

Lemma lower_idempotent (s : string) :
  PyStr.lower (PyStr.lower s) = PyStr.lower s.
Proof.
  induction s as [|c s IH]; [reflexivity|].
  cbn [PyStr.lower]. now rewrite lower_char_idempotent, IH.
Qed.

Lemma lower_cons (c : ascii) (s : string) :
  PyStr.lower (String c s) = String c s ->
  PyStr.lower_char c = c /\ PyStr.lower s = s.
Proof. cbn [PyStr.lower]. intro H. now injection H. Qed.

(** Taking occurrences out of a lower-case string leaves it lower case. *)
Lemma remove_keeps_lower (old : string) (s : string) :
  forall skip,
    PyStr.lower s = s ->
    PyStr.lower (PyStr.replace_from old "" skip s)
    = PyStr.replace_from old "" skip s.
Proof.
  induction s as [|c s IH]; intros skip Hs; [reflexivity|].
  apply lower_cons in Hs as [Hc Hs].
  cbn [PyStr.replace_from]. destruct skip as [|k]; [|now apply IH].
  destruct (String.prefix old (String c s)).
  - cbn [String.append]. now apply IH.
  - cbn [PyStr.lower]. now rewrite Hc, IH.
Qed.

Lemma scraper_name_lower (name : string) :
  PyStr.lower (scraper_name_of name) = scraper_name_of name.
Proof.
  unfold scraper_name_of, PyStr.replace.
  apply remove_keeps_lower, lower_idempotent.
Qed.

Lemma lowercase_keys_set (k : string) (c : pyclass)
      (d : list (string * pyclass)) :
  PyStr.lower k = k ->
  Forall (fun k => PyStr.lower k = k) (dict_keys d) ->
  Forall (fun k => PyStr.lower k = k) (dict_keys (dict_set k c d)).
Proof.
  intros Hk Hd. rewrite Forall_forall in *. intros x Hx.
  apply dict_set_keys in Hx as [->|Hx]; auto.
Qed.

Lemma register_members_lower (members : list (string * pyobj)) :
  forall w,
    lowercase_keys w ->
    lowercase_keys (snd (register_members members w)).
Proof.
  induction members as [|[name obj] rest IH]; intros w Hw; [exact Hw|].
  cbn [register_members].
  destruct obj as [c|]; [|now apply IH].
  destruct (cls_kind c); try now apply IH.
  unfold bind, set_scraper, bind, get_world, put_registry, log, emit.
  cbv beta iota. apply IH. unfold lowercase_keys. cbn.
  apply lowercase_keys_set; [apply scraper_name_lower|exact Hw].
Qed.

Lemma scan_files_lower (X : externals) (files : list string) :
  forall w,
    lowercase_keys w -> lowercase_keys (snd (scan_files X files w)).
Proof.
  induction files as [|filename rest IH]; intros w Hw; [exact Hw|].
  cbn [scan_files]. unfold bind.
  destruct (is_parser_file filename); [|now apply IH].
  unfold try_except.
  destruct (import_members X (strip_py filename)) as [members|].
  - pose proof (register_members_lower members w Hw) as H1.
    destruct (register_members_ok members w) as (w1 & Heq & _).
    rewrite Heq in *. now apply IH.
  - unfold raise, log, emit. now apply IH.
Qed.

Lemma discover_lower (X : externals) (w : world) :
  lowercase_keys w -> lowercase_keys (snd (_discover_scrapers X w)).
Proof.
  intro Hw. unfold _discover_scrapers, bind, get_world.
  destruct (_discovered (registry w)); [exact Hw|].
  pose proof (scan_files_lower X (parsers_dir X) w Hw) as H1.
  destruct (scan_files_ok X (parsers_dir X) w) as (w1 & Heq & _).
  rewrite Heq in *. exact H1.
Qed.

Lemma dict_get_set {V} (k k' : string) (v : V) (d : list (string * V)) :
  dict_get k (dict_set k' v d)
  = if String.eqb k' k then Some v else dict_get k d.
Proof.
  induction d as [|[k0 v0] d IH]; cbn [dict_set dict_get].
  - reflexivity.
  - destruct (String.eqb k0 k') eqn:E; cbn [dict_get].
    + apply String.eqb_eq in E. subst k0.
      now destruct (String.eqb k' k).
    + rewrite IH. destruct (String.eqb k0 k) eqn:E0; [|reflexivity].
      apply String.eqb_eq in E0. subst k0. now rewrite String.eqb_sym, E.
Qed.

Lemma register_members_found (members : list (string * pyobj)) :
  forall w k,
    let d := _scrapers (registry w) in
    let d' := _scrapers (registry (snd (register_members members w))) in
    (forall c, dict_get k d' = Some c ->
               dict_get k d = Some c \/ found_among members k c)
    /\ (In k (dict_keys d) \/ (exists c, found_among members k c) ->
        In k (dict_keys d')).
Proof.
  induction members as [|[name obj] rest IH]; intros w k; cbv zeta.
  - cbn [register_members ret snd]. split; [auto|].
    intros [H|(c & n & [] & _)]. exact H.
  - assert (Hskip : forall w0 : world,
               (forall c, found_among rest k c ->
                          found_among ((name, obj) :: rest) k c)).
    { intros _ c (n & Hin & Hk & Hn). exists n. cbn [In]. auto. }
    assert (Hother :
              (match obj with
               | PyClass c => cls_kind c <> ScraperSubclass
               | PyOther => True
               end) ->
              forall c, found_among ((name, obj) :: rest) k c ->
                        found_among rest k c).
    { intros Hobj c (n & [Heq|Hin] & Hk & Hn); [|exists n; auto].
      injection Heq as <- ->. contradiction. }
    cbn [register_members].
    destruct obj as [c0|].
    2:{ destruct (IH w k) as [H1 H2]. split.
        - intros c Hc. destruct (H1 c Hc); [auto|right; now apply (Hskip w)].
        - intros [H|(c & H)]; apply H2; [auto|right; exists c].
          now apply Hother. }
    destruct (cls_kind c0) eqn:Hkind.
    1,3: destruct (IH w k) as [H1 H2]; split;
      [ intros c Hc; destruct (H1 c Hc); [auto|right; now apply (Hskip w)]
      | intros [H|(c & H)]; apply H2; [auto|right; exists c];
        apply Hother; [congruence|assumption] ].
    unfold bind at 1, set_scraper, bind at 1, get_world, put_registry.
    cbv beta iota. unfold bind at 1, log, emit. cbv beta iota.
    match goal with
    | |- context [register_members rest ?w0] =>
        destruct (IH w0 k) as [H1 H2]
    end.
    cbn [registry _scrapers] in H1, H2. split.
    + intros c Hc. destruct (H1 c Hc) as [Hd|Hf].
      * rewrite dict_get_set in Hd.
        destruct (String.eqb (scraper_name_of name) k) eqn:E; [|auto].
        injection Hd as <-. right. exists name. cbn [In].
        apply String.eqb_eq in E. auto.
      * right. now apply (Hskip w).
    + intros [H|(c & n & [Heq|Hin] & Hk & Hn)]; apply H2.
      * left. apply dict_set_keys. auto.
      * injection Heq as <- <-. left. apply dict_set_keys. auto.
      * right. exists c, n. auto.
Qed.

Lemma scan_files_found (X : externals) (files : list string) :
  forall w k,
    let d := _scrapers (registry w) in
    let d' := _scrapers (registry (snd (scan_files X files w))) in
    (forall c, dict_get k d' = Some c ->
               dict_get k d = Some c \/ found_in X files k c)
    /\ (In k (dict_keys d) \/ (exists c, found_in X files k c) ->
        In k (dict_keys d')).
Proof.
  induction files as [|filename rest IH]; intros w k; cbv zeta.
  - cbn [scan_files ret snd]. split; [auto|].
    intros [H|(c & f & m & [] & _)]. exact H.
  - assert (Hlater : forall c, found_in X rest k c ->
                               found_in X (filename :: rest) k c).
    { intros c (f & m & Hin & H). exists f, m. cbn [In]. tauto. }
    cbn [scan_files]. unfold bind.
    destruct (is_parser_file filename) eqn:Hfile.
    + unfold try_except.
      destruct (import_members X (strip_py filename)) as [members|] eqn:Himp.
      * destruct (register_members_found members w k) as [M1 M2].
        destruct (register_members_ok members w) as (w1 & Heq & _).
        rewrite Heq in *. cbn [snd] in M1, M2.
        destruct (IH w1 k) as [H1 H2]. split.
        -- intros c Hc. destruct (H1 c Hc) as [Hd|Hf]; [|auto].
           destruct (M1 c Hd) as [Hd0|Hm]; [auto|].
           right. exists filename, members. cbn [In]. auto.
        -- intros [H|(c & f & m & [Hsame|Hin] & Hf & Hm & Hfound)];
          try subst f; apply H2.
           ++ left. apply M2. auto.
           ++ left. apply M2. right. exists c.
              rewrite Himp in Hm. now injection Hm as <-.
           ++ right. exists c, f, m. auto.
      * unfold raise, log, emit.
        match goal with
        | |- context [scan_files X rest ?w0] =>
            destruct (IH w0 k) as [H1 H2]
        end.
        cbn [registry] in H1, H2. split.
        -- intros c Hc. destruct (H1 c Hc); auto.
        -- intros [H|(c & f & m & [Hsame|Hin] & Hf & Hm & Hfound)];
          try subst f; apply H2.
           ++ auto.
           ++ congruence.
           ++ right. exists c, f, m. auto.
    + unfold ret. destruct (IH w k) as [H1 H2]. split.
      * intros c Hc. destruct (H1 c Hc); auto.
      * intros [H|(c & f & m & [Hsame|Hin] & Hf & Hm & Hfound)];
          try subst f; apply H2.
        -- auto.
        -- congruence.
        -- right. exists c, f, m. auto.
Qed.

(** X11: after [reload_scrapers] the registry holds the scraper classes
    of the parser modules that could be imported, and nothing else:
    every registered class is a subclass of the base scraper found in
    such a module under that name, and every name so found is
    registered. What was registered before is forgotten, and a module
    that fails to import costs only its own classes. *)
Theorem reload_registers_what_it_finds
  (X : externals) (w : world) (k : string) :
  let d' := _scrapers (registry (snd (reload_scrapers X w))) in
  fst (reload_scrapers X w) = Ok tt
  /\ (forall c, dict_get k d' = Some c -> found_in X (parsers_dir X) k c)
  /\ ((exists c, found_in X (parsers_dir X) k c) -> In k (dict_keys d')).
Proof.
  cbv zeta. unfold reload_scrapers, bind, put_registry.
  cbv beta iota.
  set (w0 := mkWorld (store w) (next_id w) (index w) (mkFactory [] false)
                     (trace w)).
  unfold _discover_scrapers, bind, get_world.
  change (_discovered (registry w0)) with false. cbv iota.
  destruct (scan_files_found X (parsers_dir X) w0 k) as [H1 H2].
  destruct (scan_files_ok X (parsers_dir X) w0) as (w1 & Heq & _).
  rewrite Heq in *. cbn [snd] in H1, H2.
  unfold put_registry, log, emit. cbv beta iota. cbn [fst snd registry _scrapers].
  split; [reflexivity|]. split.
  - intros c Hc. destruct (H1 c Hc) as [Hd|Hf]; [discriminate|exact Hf].
  - intro H. apply H2. now right.
Qed.

(** X9: once discovery has run, a class registered by hand is found
    again: [create_scraper] returns it for the registered name in any
    mix of upper and lower case. *)
Theorem register_then_create
  (X : externals) (name scraper_type : string) (c : pyclass) (w : world) :
  _discovered (registry w) = true ->
  cls_kind c <> UnrelatedClass ->
  cls_constructible c = true ->
  PyStr.lower scraper_type = PyStr.lower name ->
  exists w',
    register_scraper name c w = (Ok tt, w')
    /\ create_scraper X scraper_type w' = (Ok c, w').
Proof.
  intros Hdisc Hkind Hcons Hname.
  unfold register_scraper.
  destruct (cls_kind c) eqn:E; try congruence.
  all: unfold bind, set_scraper, bind, get_world, put_registry, log, emit;
    cbv beta iota; eexists; (split; [reflexivity|]);
    rewrite create_scraper_discovered by exact Hdisc;
    cbn [registry _scrapers]; rewrite Hname, dict_get_set_same, Hcons;
    reflexivity.
Qed.

Lemma register_then_create_witness :
  exists w',
    register_scraper "Alpha" alpha_class registered_world = (Ok tt, w')
    /\ create_scraper newsroom "ALPHA" w' = (Ok alpha_class, w').
Proof.
  apply (register_then_create newsroom "Alpha" "ALPHA" alpha_class
           registered_world).
  - reflexivity.
  - discriminate.
  - reflexivity.
  - reflexivity.
Defined.




(** X12: the names of the registry stay in lower case: registering a
    class, creating a scraper and listing the scrapers keep them so, and
    reloading makes them so. *)
Theorem registry_names_stay_lowercase (X : externals) (w : world) :
  lowercase_keys w ->
  (forall name c, lowercase_keys (snd (register_scraper name c w)))
  /\ (forall scraper_type,
        lowercase_keys (snd (create_scraper X scraper_type w)))
  /\ lowercase_keys (snd (get_available_scrapers X w))
  /\ lowercase_keys (snd (reload_scrapers X w)).
Proof.
  intro Hlow.
  pose proof (discover_lower X w Hlow) as Hd.
  destruct (discover_ok X w) as (w' & Heq & _ & _ & _).
  repeat split.
  - intros name c. unfold register_scraper.
    destruct (cls_kind c); [| |exact Hlow].
    all: unfold bind, set_scraper, bind, get_world, put_registry, log, emit;
      cbv beta iota; unfold lowercase_keys; cbn [snd registry _scrapers];
      apply lowercase_keys_set; [apply lower_idempotent|exact Hlow].
  - intro scraper_type. unfold create_scraper, bind.
    rewrite Heq in *. cbn [snd] in Hd. unfold get_world.
    destruct (dict_get _ _) as [c|]; [|exact Hd].
    destruct (cls_constructible c); exact Hd.
  - unfold get_available_scrapers, bind. rewrite Heq in *. exact Hd.
  - unfold reload_scrapers, bind, put_registry. cbv beta iota.
    apply discover_lower. constructor.
Qed.

Lemma registry_names_stay_lowercase_witness :
  (forall name c,
      lowercase_keys (snd (register_scraper name c registered_world)))
  /\ (forall scraper_type,
        lowercase_keys
          (snd (create_scraper newsroom scraper_type registered_world)))
  /\ lowercase_keys (snd (get_available_scrapers newsroom registered_world))
  /\ lowercase_keys (snd (reload_scrapers newsroom registered_world)).
Proof.
  apply (registry_names_stay_lowercase newsroom registered_world).
  repeat constructor.
Defined.
